(** * A pricing-catalog app: catalog service, MCP tool callback, widget selection

    Shallow embedding of the TypeScript sources

    - [lib/utils/image-utils]      (the location image map, [getVariantImageUrl]),
    - [lib/services/catalog-service] ([CatalogService], [fetchCatalog]),
    - the MCP route ([show_pricing] tool callback) and
    - the widget page ([Home]: displayed catalog, [selectedCard], click handlers,
      the local fallback fetch and the guard of its effect),
    - the local endpoint ([POST] of the catalog route) and
    - [baseUrl] ([getBaseURL], in the two versions the repository holds).

    Modelling conventions.

    - A JavaScript string is a [string]; the model covers ASCII text: [toLowerCase]
      folds the letters A-Z and [trim] strips the ASCII white space (tab, line feed,
      vertical tab, form feed, carriage return, space).
    - [undefined] and [null] are [None]; the truthiness tests of the source
      ([x || d], [if (x)], [x ? a : b]) are written out with [truthy_string],
      [truthy_number] and [truthy_json].
    - The network is an explicit transport function; every call of [fetch] is appended to
      a request log that is threaded through the [Net] monad.
    - Exceptions are values of type [Thrown]; the [try]/[catch] of [fetchCatalog] is a
      match on a sum. *)

From Stdlib Require Import ZArith Ascii String.
From stdpp Require Import base list strings pretty gmap.

Local Open Scope string_scope.

(** ** JavaScript strings and truthiness *)

Module Js.

(** [String.prototype.toLowerCase], on ASCII. *)
Definition lower_ascii (c : ascii) : ascii :=
  let n := nat_of_ascii c in
  if (65 <=? n)%nat && (n <=? 90)%nat then ascii_of_nat (n + 32) else c.

Fixpoint toLowerCase (s : string) : string :=
  match s with
  | EmptyString => EmptyString
  | String c s' => String (lower_ascii c) (toLowerCase s')
  end.

(** White space removed by [String.prototype.trim], on ASCII: the codes 9 to
    13 and the space. *)
Definition is_whitespace (c : ascii) : bool := Ascii.is_space c.

Fixpoint trimStart (s : string) : string :=
  match s with
  | EmptyString => EmptyString
  | String c s' => if is_whitespace c then trimStart s' else s
  end.

Fixpoint trimEnd (s : string) : string :=
  match s with
  | EmptyString => EmptyString
  | String c s' =>
      match trimEnd s' with
      | EmptyString => if is_whitespace c then EmptyString else String c EmptyString
      | t => String c t
      end
  end.

Definition trim (s : string) : string := trimEnd (trimStart s).

(** [s.includes(t)]: [t] occurs in [s] at some position. *)
Fixpoint includes (s t : string) : bool :=
  String.prefix t s ||
  match s with
  | EmptyString => false
  | String _ s' => includes s' t
  end.

(** Truthiness of a string, of an optional string and of a number. *)
Definition truthy_string (s : string) : bool :=
  match s with EmptyString => false | String _ _ => true end.

Definition truthy_opt_string (o : option string) : bool :=
  match o with Some s => truthy_string s | None => false end.

Definition truthy_number (n : Z) : bool := negb (n =? 0)%Z.

(** [o || d] for an optional string [o] and a string [d]. *)
Definition or_string (o : option string) (d : string) : string :=
  match o with
  | Some s => if truthy_string s then s else d
  | None => d
  end.

(** A number interpolated in a template literal. *)
Definition number_to_string (n : nat) : string := pretty n.

(** The double-quote character of the template literals. *)
Definition dquote : string := String (ascii_of_nat 34) EmptyString.

(** A string of ASCII characters only (every code below 128): on such a string
    [toLowerCase] and [trim] above are the JavaScript functions themselves. *)
Fixpoint is_ascii (s : string) : bool :=
  match s with
  | EmptyString => true
  | String c s' => (nat_of_ascii c <? 128)%nat && is_ascii s'
  end.

Definition is_ascii_opt (o : option string) : bool :=
  match o with Some s => is_ascii s | None => true end.

(** A string that does not begin with white space. *)
Definition starts_clean (s : string) : bool :=
  match s with
  | EmptyString => true
  | String c _ => negb (is_whitespace c)
  end.

End Js.

(** ** lib/utils/image-utils *)

Module ImageUtils.
Import Js.

Definition url_new_york : string :=
  "https://media.istockphoto.com/id/525232662/photo/new-york-empire-state-building-and-statue-of-liberty.jpg?s=1024x1024&w=is&k=20&c=9DG3g3gB1-c01RKG-Iinsigts2CtEGAQE2HoXLOYOhM=".
Definition url_nyc_skyline : string :=
  "https://media.istockphoto.com/id/1406960186/photo/the-skyline-of-new-york-city-united-states.jpg?s=1024x1024&w=is&k=20&c=m5cYGPJsDS6nTsxYucy6jlCj7flGliYw6Lf4Ftg0jQs=".
Definition url_san_francisco : string :=
  "https://media.istockphoto.com/id/1136437406/photo/san-francisco-skyline-with-oakland-bay-bridge-at-sunset-california-usa.jpg?s=1024x1024&w=is&k=20&c=_UuntG09XSAMDFr7E2AVukaN6MWV5jLtnsbSorf-csA=".
Definition url_chicago : string :=
  "https://media.istockphoto.com/id/1449046495/photo/chicago-river-and-cityscape.jpg?s=1024x1024&w=is&k=20&c=XyBkj-fVzvo0gbbt0Obf8qIhCpGofcC6bYbP2GSjk5g=".
Definition url_charleston : string :=
  "https://media.istockphoto.com/id/1924853613/photo/charleston-south-carolina-usa-historic-cityscape.jpg?s=1024x1024&w=is&k=20&c=I8bgWkG76H3S_3QYUqF556Aif78HVVuHZQ3ebyOGBqc=".

(** The object literal, as [Object.entries] enumerates it: string keys in
    insertion order. *)
Definition locationImageMap : list (string * string) :=
  [ ("new york", url_new_york);
    ("ny", url_nyc_skyline);
    ("new york city", url_nyc_skyline);
    ("california", url_san_francisco);
    ("san francisco", url_san_francisco);
    ("sf", url_san_francisco);
    ("los angeles", url_san_francisco);
    ("la", url_san_francisco);
    ("delaware", url_chicago);
    ("chicago", url_chicago);
    ("charleston", url_charleston);
    ("south carolina", url_charleston);
    ("usa", url_chicago);
    ("united states", url_chicago);
    ("default", url_chicago) ].

(** Property read [m[key]] on the map. *)
Fixpoint get (m : list (string * string)) (key : string) : option string :=
  match m with
  | [] => None
  | (k, v) :: m' => if String.eqb k key then Some v else get m' key
  end.

(** [locationImageMap.default]; the key is present in the literal. *)
Definition locationImageMap_default : string :=
  default EmptyString (get locationImageMap "default").

Definition searchText (variantName serviceName : option string) : string :=
  toLowerCase (or_string variantName "" ++ " " ++ or_string serviceName "").

(** The [for ... of Object.entries(...)] loop with its early [return]. *)
Fixpoint scan (entries : list (string * string)) (text : string) : option string :=
  match entries with
  | [] => None
  | (location, imageUrl) :: rest =>
      if negb (String.eqb location "default") && includes text location
      then Some imageUrl
      else scan rest text
  end.

Definition getVariantImageUrl (variantName serviceName : option string) : string :=
  match scan locationImageMap (searchText variantName serviceName) with
  | Some imageUrl => imageUrl
  | None => locationImageMap_default
  end.

End ImageUtils.

(** ** lib/services/catalog-service *)

Module CatalogService.
Import Js.

Record CatalogItem := {
  id : Z;
  service_name : option string;
  variant_name : option string;
  description : option string;
  price : Z;
  market_price : Z;
  currency : option string;
  rating : option string;
  customers : Z;
  delivery_time : Z;
  category : option string;
  page_url : option string;
  about : option string;
  unit : option string;
}.

Record CatalogResponse := {
  catalog : list CatalogItem;
  error : option string;
}.

(** A parsed JSON body. The source assigns a received array to a
    [CatalogItem[]] without looking at its elements, so an array is a list of
    items here. An object is the list of its own properties. *)
#[warnings="-register-all"]
Inductive Json :=
| JNull
| JBool (b : bool)
| JNumber (n : Z)
| JString (s : string)
| JArray (items : list CatalogItem)
| JObject (props : list (string * Json)).

(** What a [catch] clause can receive. *)
Inductive Thrown :=
| ErrorObject (message : string)
| NotAnError.

Definition truthy_json (v : option Json) : bool :=
  match v with
  | None | Some JNull => false
  | Some (JBool b) => b
  | Some (JNumber n) => truthy_number n
  | Some (JString s) => truthy_string s
  | Some (JArray _) | Some (JObject _) => true
  end.

Definition isArray (v : option Json) : bool :=
  match v with Some (JArray _) => true | _ => false end.

Definition array_items (v : option Json) : list CatalogItem :=
  match v with Some (JArray xs) => xs | _ => [] end.

Fixpoint own_property (props : list (string * Json)) (key : string) : option Json :=
  match props with
  | [] => None
  | (k, v) :: rest => if String.eqb k key then Some v else own_property rest key
  end.

(** The property reads [data.catalog] and [data.data]: reading a property of
    [null] throws a [TypeError] (message as V8 words it); a primitive or an
    array has no property of these names. *)
Definition get_prop (data : Json) (key : string) : Thrown + option Json :=
  match data with
  | JNull => inl (ErrorObject ("Cannot read properties of null (reading '" ++ key ++ "')"))
  | JObject props => inr (own_property props key)
  | _ => inr None
  end.

Record Response := {
  ok : bool;
  status : nat;
  statusText : string;
  json : Thrown + Json;   (* [await response.json()] *)
}.

Record Request := {
  url : string;
  method : string;
  headers : list (string * string);
  body : string;
}.

(** [fetch]: rejects with a thrown value or resolves with a response. *)
Definition Transport : Type := Request -> Thrown + Response.

(** Computations that may call [fetch]; the list is the log of the requests
    sent so far. *)
Definition Net (A : Type) : Type := Transport -> list Request -> A * list Request.

Definition ret {A} (a : A) : Net A := fun _ log => (a, log).

Definition bind {A B} (m : Net A) (k : A -> Net B) : Net B :=
  fun t log => let (a, log') := m t log in k a t log'.

Definition fetch (req : Request) : Net (Thrown + Response) :=
  fun t log => (t req, (log ++ [req])%list).

(** [JSON.stringify] of an object whose values are plain strings. *)
Definition stringify_entry (kv : string * string) : string :=
  dquote ++ kv.1 ++ dquote ++ ":" ++ dquote ++ kv.2 ++ dquote.

Definition JSON_stringify (o : list (string * string)) : string :=
  "{" ++ String.concat "," (map stringify_entry o) ++ "}".

Record CatalogService := {
  apiUrl : string;
  apiKey : option string;
  defaultPayload : list (string * string);
}.

(** [process.env], the ambient environment any function of the program can
    read. *)
Definition Env : Type := gmap string string.

(** [new CatalogService()]. *)
Definition constructor (env : Env) : CatalogService :=
  {| apiUrl := "https://uat.ledgersapi.com/catalog/indiafilings-catalog/api";
     apiKey := Some "p4xI6QzOPI4EyFg38qtcJ1nImIFru7zW3LcrSIOh";
     defaultPayload :=
       [("operation", "catalog_v2"); ("catalog_id", "230"); ("type", "1")] |}.

Definition missing_key_error : string :=
  "API key not configured. Please set CATALOG_API_KEY environment variable.".

(** The [catch (error)] clause. *)
Definition caught (e : Thrown) : CatalogResponse :=
  {| catalog := [];
     error := Some match e with
                   | ErrorObject message => message
                   | NotAnError => "Failed to fetch catalog data"
                   end |}.

(** The [if / else if / else if] over the shape of [data]; a property read
    that throws leaves the [try] block. *)
Definition normalize (data : Json) : Thrown + list CatalogItem :=
  if isArray (Some data) then inr (array_items (Some data))
  else
    match get_prop data "catalog" with
    | inl e => inl e
    | inr c =>
        if truthy_json c && isArray c then inr (array_items c)
        else
          match get_prop data "data" with
          | inl e => inl e
          | inr d =>
              if truthy_json d && isArray d then inr (array_items d)
              else inr []
          end
    end.

Definition request_of (self : CatalogService) : Request :=
  {| url := apiUrl self;
     method := "POST";
     headers := [("x-api-key", default "" (apiKey self));
                 ("Content-Type", "application/json")];
     body := JSON_stringify (defaultPayload self) |}.

Definition fetchCatalog (self : CatalogService) : Net CatalogResponse :=
  if negb (truthy_opt_string (apiKey self)) then
    ret {| catalog := []; error := Some missing_key_error |}
  else
    bind (fetch (request_of self)) (fun outcome =>
      match outcome with
      | inl e => ret (caught e)
      | inr response =>
          if negb (ok response) then
            ret {| catalog := [];
                   error := Some ("Failed to fetch catalog: "
                                  ++ number_to_string (status response)
                                  ++ " " ++ statusText response) |}
          else
            match json response with
            | inl e => ret (caught e)
            | inr data =>
                match normalize data with
                | inl e => ret (caught e)
                | inr items => ret {| catalog := items; error := None |}
                end
            end
      end).

End CatalogService.

(** ** app/mcp/route: the [show_pricing] tool *)

Module McpRoute.
Import Js CatalogService.

Record ContentWidget := {
  widget_id : string;
  title : string;
  templateUri : string;
  invoking : string;
  invoked : string;
  widget_description : string;
  widgetDomain : string;
}.

Record WidgetMeta := {
  outputTemplate : string;
  toolInvocation_invoking : string;
  toolInvocation_invoked : string;
  widgetAccessible : bool;
  resultCanProduceWidget : bool;
}.

Definition widgetMeta (widget : ContentWidget) : WidgetMeta :=
  {| outputTemplate := templateUri widget;
     toolInvocation_invoking := invoking widget;
     toolInvocation_invoked := invoked widget;
     widgetAccessible := false;
     resultCanProduceWidget := true |}.

Definition pricingWidget : ContentWidget :=
  {| widget_id := "show_pricing";
     title := "Show Pricing Catalog";
     templateUri := "ui://widget/pricing-template.html";
     invoking := "Loading pricing catalog...";
     invoked := "Pricing catalog loaded";
     widget_description := "Displays service pricing catalog with interactive cards";
     widgetDomain := "https://nextjs.org/docs" |}.

(** [structuredContent]; a key the returned literal does not have is [None]. *)
Record StructuredContent := {
  serviceName : option string;
  catalog : list CatalogItem;
  count : option nat;
  error : option string;
  message : option string;
}.

Record ToolResult := {
  text : string;                       (* content[0].text *)
  structuredContent : StructuredContent;
  _meta : WidgetMeta;
}.

(** [serviceName || null]. *)
Definition or_null (serviceName : option string) : option string :=
  if truthy_opt_string serviceName then serviceName else None.

(** The callback of [catalog.filter]. *)
Definition matches (serviceName : string) (item : CatalogItem) : bool :=
  let searchTerm := trim (toLowerCase serviceName) in
  let serviceNameLower := or_string (toLowerCase <$> service_name item) "" in
  let variantNameLower := or_string (toLowerCase <$> variant_name item) "" in
  let categoryLower := or_string (toLowerCase <$> category item) "" in
  includes serviceNameLower searchTerm
  || includes variantNameLower searchTerm
  || includes categoryLower searchTerm.

(** [serviceName ? catalog.filter(...) : catalog]. *)
Definition filteredCatalog (serviceName : option string)
    (catalog : list CatalogItem) : list CatalogItem :=
  match serviceName with
  | Some q => if truthy_string q then List.filter (matches q) catalog else catalog
  | None => catalog
  end.

(** The callback body after [await catalogService.fetchCatalog()]. *)
Definition respond (serviceName : option string) (r : CatalogResponse) : ToolResult :=
  if truthy_opt_string (CatalogService.error r) then
    {| text := "Error fetching catalog: " ++ default "" (CatalogService.error r)
               ++ ". Please check the API configuration.";
       structuredContent :=
         {| serviceName := or_null serviceName;
            catalog := [];
            count := None;
            error := CatalogService.error r;
            message := None |};
       _meta := widgetMeta pricingWidget |}
  else
    let filtered := filteredCatalog serviceName (CatalogService.catalog r) in
    if (length filtered =? 0)%nat then
      {| text := if truthy_opt_string serviceName
                 then "No services found matching " ++ dquote
                      ++ default "" serviceName ++ dquote
                      ++ ". Showing all available services."
                 else "No services available in the catalog.";
         structuredContent :=
           {| serviceName := or_null serviceName;
              catalog := CatalogService.catalog r;
              count := Some (length (CatalogService.catalog r));
              error := None;
              message := Some (if truthy_opt_string serviceName
                               then "No matching services found, showing all"
                               else "No services available") |};
         _meta := widgetMeta pricingWidget |}
    else
      {| text := "Found " ++ number_to_string (length filtered) ++ " service(s)"
                 ++ (if truthy_opt_string serviceName
                     then " matching " ++ dquote ++ default "" serviceName ++ dquote
                     else "")
                 ++ ".";
         structuredContent :=
           {| serviceName := or_null serviceName;
              catalog := filtered;
              count := Some (length filtered);
              error := None;
              message := None |};
         _meta := widgetMeta pricingWidget |}.

(** The service the handler creates once: [new CatalogService()]. *)
Definition catalogService (env : Env) : CatalogService.CatalogService :=
  CatalogService.constructor env.

(** The registered tool callback, [async ({ serviceName }) => ...]. *)
Definition show_pricing (env : Env) (serviceName : option string) : Net ToolResult :=
  bind (fetchCatalog (catalogService env)) (fun r => ret (respond serviceName r)).

End McpRoute.

(** ** app/page: the widget *)

Module Page.
Import Js CatalogService.

Record ToolOutput := {
  serviceName : option string;
  catalog : option (list CatalogItem);
  error : option string;
  count : option nat;
  message : option string;
}.

Record WidgetState := { selectedCardId : option Z }.

(** [toolOutput?.catalog || []]; an array is truthy, also when empty. *)
Definition catalogFromTool (toolOutput : option ToolOutput) : list CatalogItem :=
  match toolOutput with
  | Some out => default [] (catalog out)
  | None => []
  end.

(** [catalogFromTool.length > 0 ? catalogFromTool : localCatalog]. *)
Definition displayed (toolOutput : option ToolOutput)
    (localCatalog : list CatalogItem) : list CatalogItem :=
  if (0 <? length (catalogFromTool toolOutput))%nat
  then catalogFromTool toolOutput
  else localCatalog.

(** [widgetState?.selectedCardId ? catalog.find(...) || null : null]. *)
Definition selectedCard (widgetState : option WidgetState)
    (catalog : list CatalogItem) : option CatalogItem :=
  match widgetState with
  | Some ws =>
      match selectedCardId ws with
      | Some n =>
          if truthy_number n
          then List.find (fun item => (id item =? n)%Z) catalog
          else None
      | None => None
      end
  | None => None
  end.

(** [setWidgetState({ selectedCardId: item.id })]. *)
Definition handleCardClick (item : CatalogItem) (widgetState : option WidgetState)
    : option WidgetState :=
  Some {| selectedCardId := Some (id item) |}.

(** [setWidgetState({ selectedCardId: null })]. *)
Definition handleCloseDetails (widgetState : option WidgetState) : option WidgetState :=
  Some {| selectedCardId := None |}.

End Page.

(** ** baseUrl: the deployment's base URL, in its two versions *)

Module BaseUrl.
Import Js.

(** [a || b] on two optional strings. *)
Definition or_else (a b : option string) : option string :=
  if truthy_opt_string a then a else b.

(** [s.replace(/\/$/, "")]: a slash at the very end of the string is removed,
    once. *)
Fixpoint strip_trailing_slash (s : string) : string :=
  match s with
  | EmptyString => EmptyString
  | String c EmptyString => if Ascii.eqb c "/" then EmptyString else s
  | String c s' => String c (strip_trailing_slash s')
  end.

Definition is_development (env : gmap string string) : bool :=
  bool_decide (env !! "NODE_ENV" = Some "development").

(** The chain [A || B || C || D] over the four Vercel variables. *)
Definition vercelUrl (env : gmap string string) : option string :=
  or_else
    (or_else
       (or_else (env !! "VERCEL_PROJECT_PRODUCTION_URL") (env !! "VERCEL_BRANCH_URL"))
       (env !! "VERCEL_URL"))
    (env !! "NEXT_PUBLIC_VERCEL_URL").

(** [cleanUrl.startsWith("https://") ? cleanUrl : `https://${cleanUrl}`]. *)
Definition with_https (u : string) : string :=
  if String.prefix "https://" u then u else "https://" ++ u.

(** The version that removes a trailing slash. *)
Definition getBaseURL (env : gmap string string) : string :=
  if is_development env then "http://localhost:3000"
  else if truthy_opt_string (vercelUrl env)
       then with_https (strip_trailing_slash (default "" (vercelUrl env)))
       else "".

(** The version without the trailing-slash step. *)
Definition getBaseURL_unstripped (env : gmap string string) : string :=
  if is_development env then "http://localhost:3000"
  else if truthy_opt_string (vercelUrl env)
       then with_https (default "" (vercelUrl env))
       else "".

End BaseUrl.

(** ** app/api/catalog/route: the local retrieval endpoint *)

Module ApiCatalog.
Import Js CatalogService.

(** The JSON object of a reply: [{ catalog }] or [{ error }]. *)
Record ApiBody := {
  body_catalog : option (list CatalogItem);
  body_error : option string;
}.

Record ApiResponse := {
  api_status : nat;
  api_body : ApiBody;
}.

(** [POST]. [fetchCatalog] returns a value on every path, so the outer [catch]
    of the handler has nothing to catch. *)
Definition POST (env : Env) : Net ApiResponse :=
  bind (fetchCatalog (constructor env)) (fun r =>
    if truthy_opt_string (error r)
    then ret {| api_status := 500;
                api_body := {| body_catalog := None; body_error := error r |} |}
    else ret {| api_status := 200;
                api_body := {| body_catalog := Some (catalog r); body_error := None |} |}).

End ApiCatalog.

(** ** app/page: the local fallback fetch and what is shown *)

Module PageData.
Import Js CatalogService ApiCatalog.

(** The three [useState] cells. *)
Record LocalState := {
  localCatalog : list CatalogItem;
  loading : bool;
  localError : option string;
}.

Definition initial : LocalState :=
  {| localCatalog := []; loading := false; localError := None |}.

(** What [fetch("/api/catalog")] resolves with, as the page reads it: the body
    is an object whose [catalog], when present, is an array and whose [error],
    when present, is a string. *)
Record PageResponse := {
  ok : bool;
  status : nat;
  json : Thrown + ApiBody;
}.

Definition Outcome : Type := Thrown + PageResponse.

(** The [try] block of [fetchCatalogData]: the list handed to
    [setLocalCatalog], or what was thrown. *)
Definition try_block (outcome : Outcome) : Thrown + list CatalogItem :=
  match outcome with
  | inl e => inl e
  | inr response =>
      if negb (ok response) then
        match json response with
        | inl e => inl e
        | inr errorData =>
            inl (ErrorObject
                   (or_string (body_error errorData)
                      ("Failed to fetch: " ++ number_to_string (status response))))
        end
      else
        match json response with
        | inl e => inl e
        | inr data => inr (default [] (body_catalog data))
        end
  end.

(** [err instanceof Error ? err.message : "Failed to fetch catalog data"]. *)
Definition message_of (e : Thrown) : string :=
  match e with
  | ErrorObject message => message
  | NotAnError => "Failed to fetch catalog data"
  end.

(** [setLoading(true); setLocalError(null)]. *)
Definition fetch_started (st : LocalState) : LocalState :=
  {| localCatalog := localCatalog st; loading := true; localError := None |}.

(** The state once the promise has settled: [setLocalCatalog] or
    [setLocalError], then [setLoading(false)] in [finally]. *)
Definition fetch_settled (outcome : Outcome) (st : LocalState) : LocalState :=
  match try_block outcome with
  | inr items =>
      {| localCatalog := items; loading := false; localError := localError st |}
  | inl e =>
      {| localCatalog := localCatalog st; loading := false;
         localError := Some (message_of e) |}
  end.

Definition fetchCatalogData (outcome : Outcome) (st : LocalState) : LocalState :=
  fetch_settled outcome (fetch_started st).

(** The guard of the fallback effect:
    [!catalogFromTool.length && !loading && localCatalog.length === 0 && !localError]. *)
Definition should_fetch (toolOutput : option Page.ToolOutput) (st : LocalState) : bool :=
  (length (Page.catalogFromTool toolOutput) =? 0)%nat
  && negb (loading st)
  && (length (localCatalog st) =? 0)%nat
  && negb (truthy_opt_string (localError st)).

(** What one run of the fallback effect does: fetch at once (standalone), fetch
    from a timer of 2000 ms (in the host), or nothing. *)
Inductive EffectAction :=
| NoFetch
| FetchNow
| FetchAfter (ms : nat).

Definition fallback_effect (isChatGptApp : bool) (toolOutput : option Page.ToolOutput)
    (st : LocalState) : EffectAction :=
  if negb isChatGptApp then
    if should_fetch toolOutput st then FetchNow else NoFetch
  else
    if should_fetch toolOutput st then FetchAfter 2000 else NoFetch.

(** [const catalog = ...] of the render. *)
Definition catalog (toolOutput : option Page.ToolOutput) (st : LocalState)
    : list CatalogItem :=
  Page.displayed toolOutput (localCatalog st).

(** [errorFromTool || localError]. *)
Definition error (toolOutput : option Page.ToolOutput) (st : LocalState) : option string :=
  if truthy_opt_string (toolOutput ≫= Page.error)
  then toolOutput ≫= Page.error
  else localError st.

(** The three notices of the render: [error && ...], [loading && ...] and
    [catalog.length === 0 && !error && !loading && ...]. *)
Definition shows_error (toolOutput : option Page.ToolOutput) (st : LocalState) : bool :=
  truthy_opt_string (error toolOutput st).

Definition shows_loading (st : LocalState) : bool := loading st.

Definition shows_empty_notice (toolOutput : option Page.ToolOutput) (st : LocalState)
    : bool :=
  (length (catalog toolOutput st) =? 0)%nat
  && negb (truthy_opt_string (error toolOutput st))
  && negb (loading st).

(** The reply of the local endpoint as [fetch] presents it to the page:
    [response.ok] is true for a status from 200 to 299. *)
Definition served (reply : ApiResponse) : Outcome :=
  inr {| ok := (200 <=? api_status reply)%nat && (api_status reply <=? 299)%nat;
         status := api_status reply;
         json := inr (api_body reply) |}.

(** The page's fetch answered by the endpoint of this application, which asks
    the remote source through the transport. *)
Definition fetchCatalogData_via_endpoint (env : Env) (st : LocalState)
    : Net LocalState :=
  bind (POST env) (fun reply => ret (fetchCatalogData (served reply) st)).

(** The structured content of a tool result as the host hands it to the
    widget ([window.openai.toolOutput]). *)
Definition toolOutput_of (sc : McpRoute.StructuredContent) : Page.ToolOutput :=
  {| Page.serviceName := McpRoute.serviceName sc;
     Page.catalog := Some (McpRoute.catalog sc);
     Page.error := McpRoute.error sc;
     Page.count := McpRoute.count sc;
     Page.message := McpRoute.message sc |}.

(** The tool output the widget holds after an invocation with [serviceName]
    whose fetch returned [r]. *)
Definition toolOutput_after (serviceName : option string) (r : CatalogResponse)
    : option Page.ToolOutput :=
  Some (toolOutput_of (McpRoute.structuredContent (McpRoute.respond serviceName r))).

End PageData.

(** ** The specification's vocabulary *)

Module Spec.
Import Js CatalogService.

(** [t] is a substring of [s]. *)
Definition is_substring (t s : string) : Prop :=
  exists pre post, s = pre ++ t ++ post.

(** A missing field reads as the empty string. *)
Definition field_text (f : option string) : string := default "" f.

(** The matching rule of the filter as the specification words it: the
    lower-cased, trimmed query is a substring of the lower-cased service name,
    variant name or category. *)
Definition keeps (q : string) (item : CatalogItem) : Prop :=
  let needle := trim (toLowerCase q) in
  is_substring needle (toLowerCase (field_text (service_name item)))
  \/ is_substring needle (toLowerCase (field_text (variant_name item)))
  \/ is_substring needle (toLowerCase (field_text (category item))).

(** The summary text states the number of items returned and echoes a
    supplied query. *)
Definition summary_states_count_and_query (serviceName : option string)
    (r : McpRoute.ToolResult) : Prop :=
  includes (McpRoute.text r)
    (number_to_string (length (McpRoute.catalog (McpRoute.structuredContent r)))) = true
  /\ forall q, serviceName = Some q -> includes (McpRoute.text r) q = true.

End Spec.

(** ** Sample data *)

Module Samples.
Import Js CatalogService.

Definition item (n : Z) (service variant cat : string) : CatalogItem :=
  {| id := n;
     service_name := Some service;
     variant_name := Some variant;
     description := None;
     price := 499;
     market_price := 599;
     currency := Some "USD";
     rating := None;
     customers := 0;
     delivery_time := 7;
     category := Some cat;
     page_url := None;
     about := None;
     unit := None |}.

Definition delaware : CatalogItem :=
  item 7 "USA Company Registration" "Delaware LLC" "Incorporation".
Definition wyoming : CatalogItem :=
  item 8 "USA Company Registration" "Wyoming LLC" "Incorporation".
Definition zero : CatalogItem :=
  item 0 "Trademark" "Basic" "IP".

Definition ok_response (data : Json) : Response :=
  {| ok := true; status := 200; statusText := "OK"; json := inr data |}.

(** A transport that answers every request with the same body. *)
Definition answering (data : Json) : Transport := fun _ => inr (ok_response data).

End Samples.

(** * Properties *)

Import Js.

(** ** Strings *)

Lemma append_cons a (s t : string) : String a s ++ t = String a (s ++ t).
Proof. reflexivity. Qed.

Lemma append_assoc (a b c : string) : (a ++ b) ++ c = a ++ b ++ c.
Proof.
  induction a as [|x a IH]; [reflexivity|].
  rewrite !append_cons. by rewrite IH.
Qed.

Lemma prefix_iff (t s : string) :
  String.prefix t s = true <-> exists post, s = t ++ post.
Proof.
  revert t. induction s as [|b s IH]; intros [|a t].
  - split; [by exists ""|done].
  - split; [done|]. by intros [post ?].
  - split; [by eexists|done].
  - cbn [String.prefix]. destruct (ascii_dec a b) as [->|Hne].
    + rewrite IH. split; intros [post H]; exists post.
      * by rewrite append_cons, <- H.
      * rewrite append_cons in H. by simplify_eq.
    + split; [done|]. intros [post H]. rewrite append_cons in H. by simplify_eq.
Qed.

Lemma includes_iff (s t : string) : includes s t = true <-> Spec.is_substring t s.
Proof.
  unfold Spec.is_substring. induction s as [|a s IH].
  - cbn [includes]. rewrite orb_false_r, prefix_iff. split.
    + intros [post ->]. by exists "", post.
    + intros [[|x pre] [post H]]; [by exists post|].
      by rewrite append_cons in H.
  - cbn [includes]. rewrite orb_true_iff, prefix_iff, IH. split.
    + intros [[post ->]|(pre & post & ->)].
      * by exists "", post.
      * by exists (String a pre), post.
    + intros [[|x pre] [post H]].
      * left. by exists post.
      * right. rewrite append_cons in H. simplify_eq. by exists pre, post.
Qed.

Lemma includes_middle (pre t post : string) : includes (pre ++ t ++ post) t = true.
Proof. apply includes_iff. by exists pre, post. Qed.

Lemma includes_empty (s : string) : includes s "" = true.
Proof. by destruct s. Qed.

Lemma or_string_empty (o : option string) : or_string o "" = default "" o.
Proof. by destruct o as [[|]|]. Qed.

Lemma or_string_lower (f : option string) :
  or_string (toLowerCase <$> f) "" = toLowerCase (Spec.field_text f).
Proof. by destruct f as [[|]|]. Qed.

(** ** The image map and [getVariantImageUrl] *)

Section ImageUtilsFacts.
Import ImageUtils.

Lemma default_key_present : get locationImageMap "default" = Some url_chicago.
Proof. reflexivity. Qed.

(** The loop returns nothing exactly when no key other than [default] occurs
    in the text. *)
Lemma scan_none (entries : list (string * string)) (text : string) :
  scan entries text = None <->
  forall k u, In (k, u) entries -> k <> "default" -> includes text k = false.
Proof.
  induction entries as [|[k u] rest IH]; cbn [scan].
  - split; [intros _ ? ? []|done].
  - destruct (String.eqb_spec k "default") as [->|Hk]; cbn [negb andb].
    + rewrite IH. split.
      * intros H k' u' [?|?]; [by simplify_eq|by eauto].
      * intros H k' u' ?. apply (H k' u'). by right.
    + destruct (includes text k) eqn:Hin.
      * split; [done|]. intros H. specialize (H k u (or_introl eq_refl) Hk).
        congruence.
      * rewrite IH. split.
        -- intros H k' u' [?|?]; [by simplify_eq|by eauto].
        -- intros H k' u' ?. apply (H k' u'). by right.
Qed.

(** Without a keyword in the text the result is the [default] entry. *)
Lemma getVariantImageUrl_no_keyword (variantName serviceName : option string) :
  (forall k u, In (k, u) locationImageMap -> k <> "default" ->
               includes (searchText variantName serviceName) k = false) ->
  getVariantImageUrl variantName serviceName = locationImageMap_default.
Proof.
  intros H. unfold getVariantImageUrl.
  by rewrite (proj2 (scan_none _ _) H).
Qed.

Lemma scan_some (entries : list (string * string)) (text u : string) :
  scan entries text = Some u -> exists k, In (k, u) entries.
Proof.
  induction entries as [|[k v] rest IH]; cbn [scan]; [done|].
  destruct (_ && _).
  - intros ?. simplify_eq. exists k. by left.
  - intros [k' ?]%IH. exists k'. by right.
Qed.

(** The function always returns one of the URLs of the map. *)
Lemma getVariantImageUrl_total (variantName serviceName : option string) :
  exists k, In (k, getVariantImageUrl variantName serviceName) locationImageMap.
Proof.
  unfold getVariantImageUrl.
  destruct (scan _ _) as [u|] eqn:Hs; [by eapply scan_some|].
  exists "default". unfold locationImageMap_default.
  rewrite default_key_present. cbn. tauto.
Qed.

End ImageUtilsFacts.

(** C2 (as stated, refuted): [getVariantImageUrl("Atlantis", "Mystery Co")] is
    not the URL stored under the [default] key. *)
Lemma C2_atlantis_is_not_default :
  ImageUtils.getVariantImageUrl (Some "Atlantis") (Some "Mystery Co")
  <> ImageUtils.locationImageMap_default.
Proof. vm_compute. discriminate. Qed.

(** C2 (amended): the search text of ("Atlantis", "Mystery Co") is
    "atlantis mystery co"; it contains the keyword "la" and none of the keys
    declared before it, so the call returns the URL stored under [la]. The URL
    under [default] is returned for every input in whose search text no keyword
    occurs. *)
Theorem C2_atlantis_resolves_to_la :
  ImageUtils.searchText (Some "Atlantis") (Some "Mystery Co") = "atlantis mystery co"
  /\ includes "atlantis mystery co" "la" = true
  /\ (forall k, k ∈ ["new york"; "ny"; "new york city"; "california";
                     "san francisco"; "sf"; "los angeles"] ->
                includes "atlantis mystery co" k = false)
  /\ ImageUtils.get ImageUtils.locationImageMap "la"
     = Some (ImageUtils.getVariantImageUrl (Some "Atlantis") (Some "Mystery Co"))
  /\ (forall variantName serviceName,
        (forall k u, In (k, u) ImageUtils.locationImageMap -> k <> "default" ->
                     includes (ImageUtils.searchText variantName serviceName) k = false) ->
        ImageUtils.getVariantImageUrl variantName serviceName
        = ImageUtils.locationImageMap_default).
Proof.
  split; [reflexivity|]. split; [reflexivity|]. split.
  { intros k Hk. repeat (apply elem_of_cons in Hk as [->|Hk]; [reflexivity|]).
    by apply elem_of_nil in Hk. }
  split; [reflexivity|]. apply getVariantImageUrl_no_keyword.
Qed.

(** Witness for C2: "gotham mystery co" contains no keyword and resolves to the
    default URL. *)
Lemma C2_witness :
  ImageUtils.getVariantImageUrl (Some "Gotham") (Some "Mystery Co")
  = ImageUtils.locationImageMap_default.
Proof.
  apply (proj2 (proj2 (proj2 (proj2 C2_atlantis_resolves_to_la)))).
  intros k u Hin Hk. cbn [In ImageUtils.locationImageMap] in Hin.
  repeat (destruct Hin as [Heq|Hin]; [injection Heq as <- <-; try reflexivity; by destruct Hk|]).
  destruct Hin.
Defined.

(** ** The filter of the tool callback *)

Section FilterFacts.
Import CatalogService McpRoute.

Lemma matches_keeps (q : string) (item : CatalogItem) :
  matches q item = true <-> Spec.keeps q item.
Proof.
  unfold matches, Spec.keeps. cbv zeta.
  rewrite !or_string_lower, !orb_true_iff, !includes_iff. tauto.
Qed.

Lemma keeps_empty_query (item : CatalogItem) : Spec.keeps "" item.
Proof. left. by exists "", (toLowerCase (Spec.field_text (service_name item))). Qed.

Lemma filter_sublist (f : CatalogItem -> bool) (l : list CatalogItem) :
  List.filter f l `sublist_of` l.
Proof.
  induction l as [|x l IH]; cbn [List.filter]; [constructor|].
  destruct (f x); by constructor.
Qed.

Lemma filteredCatalog_cases (serviceName : option string) (catalog : list CatalogItem) :
  (truthy_opt_string serviceName = false /\ filteredCatalog serviceName catalog = catalog)
  \/ (exists q, serviceName = Some q /\ truthy_string q = true
                /\ filteredCatalog serviceName catalog = List.filter (matches q) catalog).
Proof.
  destruct serviceName as [[|c q]|]; [by left| |by left].
  right. by eexists.
Qed.

End FilterFacts.

(** C4: the filter applied to a single item keeps it if and only if the
    lower-cased, trimmed query is a substring of the lower-cased service name,
    variant name or category, a missing field reading as the empty string; it
    drops the item otherwise. *)
Theorem C4_filter_keeps_iff_substring :
  forall (item : CatalogService.CatalogItem) (q : string),
    (McpRoute.filteredCatalog (Some q) [item] = [item] <-> Spec.keeps q item)
    /\ (McpRoute.filteredCatalog (Some q) [item] = [] <-> ~ Spec.keeps q item).
Proof.
  intros item q. unfold McpRoute.filteredCatalog.
  destruct q as [|c q]; cbn [truthy_string].
  - pose proof (keeps_empty_query item). split; split; try done.
  - cbn [List.filter]. pose proof (matches_keeps (String c q) item) as Hm.
    destruct (McpRoute.matches (String c q) item).
    + assert (Spec.keeps (String c q) item) by by apply Hm.
      split; split; intros; done.
    + assert (~ Spec.keeps (String c q) item) by (intros ?%Hm; done).
      split; split; intros; done.
Qed.

(** C5: the filtered list is a subsequence of the input (same items, same
    relative order), and the filter is the identity for an absent query and for
    the empty query. *)
Theorem C5_filter_subsequence_and_identity :
  forall (serviceName : option string) (catalog : list CatalogService.CatalogItem),
    McpRoute.filteredCatalog serviceName catalog `sublist_of` catalog
    /\ McpRoute.filteredCatalog None catalog = catalog
    /\ McpRoute.filteredCatalog (Some "") catalog = catalog.
Proof.
  intros serviceName catalog. split; [|done].
  destruct (filteredCatalog_cases serviceName catalog) as [[_ ->]|(q & _ & _ & ->)].
  - reflexivity.
  - apply filter_sublist.
Qed.

(** ** [CatalogService] *)

Section CatalogServiceFacts.
Import CatalogService.

(** The three accepted shapes. *)
Lemma normalize_array (xs : list CatalogItem) : normalize (JArray xs) = inr xs.
Proof. reflexivity. Qed.

Lemma normalize_catalog (props : list (string * Json)) (xs : list CatalogItem) :
  own_property props "catalog" = Some (JArray xs) ->
  normalize (JObject props) = inr xs.
Proof. intros H. unfold normalize. cbn. by rewrite H. Qed.

Lemma normalize_data (props : list (string * Json)) (xs : list CatalogItem) :
  isArray (own_property props "catalog") = false ->
  own_property props "data" = Some (JArray xs) ->
  normalize (JObject props) = inr xs.
Proof.
  intros Hc Hd. unfold normalize. cbn.
  by rewrite Hc, andb_false_r, Hd.
Qed.

Lemma normalize_data_like_catalog (xs : list CatalogItem) :
  normalize (JObject [("data", JArray xs)]) = inr xs
  /\ normalize (JObject [("catalog", JArray xs)]) = inr xs.
Proof. split; reflexivity. Qed.

(** Every other body except [null] gives the empty list. *)
Lemma normalize_other (data : Json) :
  data <> JNull ->
  isArray (Some data) = false ->
  (forall props, data = JObject props ->
     isArray (own_property props "catalog") = false
     /\ isArray (own_property props "data") = false) ->
  normalize data = inr [].
Proof.
  intros Hnull Harr Hobj. unfold normalize. rewrite Harr.
  destruct data as [| b | n | s | xs | props]; try done.
  destruct (Hobj props eq_refl) as [Hc Hd]. cbn.
  by rewrite Hc, Hd, !andb_false_r.
Qed.

(** Reading [data.catalog] on [null] throws. *)
Lemma normalize_null :
  normalize JNull
  = inl (ErrorObject "Cannot read properties of null (reading 'catalog')").
Proof. reflexivity. Qed.

Lemma normalize_throws_only_on_null (data : Json) (e : Thrown) :
  normalize data = inl e -> data = JNull.
Proof.
  unfold normalize. destruct data as [| b | n | s | xs | props]; try done.
  cbn. repeat case_match; done.
Qed.

(** What [fetchCatalog] returns for a successful response whose body parsed. *)
Lemma fetchCatalog_ok (self : CatalogService) (t : Transport) (log : list Request)
    (response : Response) (data : Json) :
  truthy_opt_string (apiKey self) = true ->
  t (request_of self) = inr response ->
  ok response = true ->
  json response = inr data ->
  fetchCatalog self t log
  = (match normalize data with
     | inl e => caught e
     | inr items => {| catalog := items; error := None |}
     end, (log ++ [request_of self])%list).
Proof.
  intros Hkey Ht Hok Hjson. unfold fetchCatalog. rewrite Hkey. cbn [negb].
  unfold bind, fetch. rewrite Ht, Hok, Hjson. cbn [negb].
  by destruct (normalize data).
Qed.

(** With a truthy key exactly one request is sent, whatever comes back. *)
Lemma fetchCatalog_sends_one (self : CatalogService) (t : Transport) (log : list Request) :
  truthy_opt_string (apiKey self) = true ->
  (fetchCatalog self t log).2 = (log ++ [request_of self])%list.
Proof.
  intros Hkey. unfold fetchCatalog. rewrite Hkey. cbn [negb].
  unfold bind, fetch.
  destruct (t _) as [e|response]; [done|].
  destruct (ok response); cbn [negb]; [|done].
  destruct (json response) as [e|data]; [done|].
  by destruct (normalize data).
Qed.

End CatalogServiceFacts.

(** C3 (the code departs from the claim on a [null] body): a successful
    response whose JSON body is [null] does not normalize to the empty list
    without error; the read of [data.catalog] throws inside the [try] block and
    [fetchCatalog] returns the empty list with the exception's message as error. *)
Theorem C3_null_body_sets_error :
  forall (env : CatalogService.Env) (log : list CatalogService.Request),
    CatalogService.fetchCatalog (CatalogService.constructor env)
      (Samples.answering CatalogService.JNull) log
    = ({| CatalogService.catalog := [];
          CatalogService.error :=
            Some "Cannot read properties of null (reading 'catalog')" |},
       (log ++ [CatalogService.request_of (CatalogService.constructor env)])%list).
Proof. intros env log. reflexivity. Qed.

(** C6: with a missing (or empty) API key [fetchCatalog] returns the empty
    catalog and a non-empty error message, and the request log is unchanged: no
    request is sent. *)
Theorem C6_missing_key_no_request :
  forall (self : CatalogService.CatalogService) (t : CatalogService.Transport)
         (log : list CatalogService.Request),
    truthy_opt_string (CatalogService.apiKey self) = false ->
    CatalogService.fetchCatalog self t log
    = ({| CatalogService.catalog := [];
          CatalogService.error := Some CatalogService.missing_key_error |}, log)
    /\ CatalogService.missing_key_error <> "".
Proof.
  intros self t log Hkey. unfold CatalogService.fetchCatalog. by rewrite Hkey.
Qed.

(** Witness for C6: a service without key, asked through a transport that
    would answer. *)
Lemma C6_witness :
  CatalogService.fetchCatalog
    {| CatalogService.apiUrl := "https://uat.ledgersapi.com/catalog/indiafilings-catalog/api";
       CatalogService.apiKey := None;
       CatalogService.defaultPayload := [] |}
    (Samples.answering (CatalogService.JArray [Samples.delaware])) []
  = ({| CatalogService.catalog := [];
        CatalogService.error := Some CatalogService.missing_key_error |}, [])
  /\ CatalogService.missing_key_error <> "".
Proof. apply C6_missing_key_no_request. reflexivity. Defined.

(** C9: the constructor sets the key to a non-empty string literal whatever
    the environment holds (setting CATALOG_API_KEY, the variable the error
    message names, changes nothing), so [fetchCatalog] on a constructed service
    never takes the missing-key branch: every call sends exactly one request. *)
Theorem C9_constructed_key_is_hard_coded :
  forall (env : CatalogService.Env),
    CatalogService.apiKey (CatalogService.constructor env)
    = Some "p4xI6QzOPI4EyFg38qtcJ1nImIFru7zW3LcrSIOh"
    /\ truthy_opt_string (CatalogService.apiKey (CatalogService.constructor env)) = true
    /\ includes CatalogService.missing_key_error "CATALOG_API_KEY" = true
    /\ (forall v : string,
          CatalogService.constructor (<["CATALOG_API_KEY" := v]> env)
          = CatalogService.constructor (delete "CATALOG_API_KEY" env))
    /\ (forall (t : CatalogService.Transport) (log : list CatalogService.Request),
          (CatalogService.fetchCatalog (CatalogService.constructor env) t log).2
          = (log ++ [CatalogService.request_of (CatalogService.constructor env)])%list).
Proof.
  intros env. repeat split.
  intros t log. by apply fetchCatalog_sends_one.
Qed.

(** ** The [show_pricing] tool callback *)

Section McpRouteFacts.
Import CatalogService McpRoute.

Lemma includes_between (pre t post s : string) :
  s = pre ++ t ++ post -> includes s t = true.
Proof. intros ->. apply includes_middle. Qed.

(** The three returns of the callback body. *)
Lemma respond_error (serviceName : option string) (r : CatalogResponse) :
  truthy_opt_string (CatalogService.error r) = true ->
  McpRoute.catalog (structuredContent (respond serviceName r)) = []
  /\ McpRoute.error (structuredContent (respond serviceName r)) = CatalogService.error r.
Proof. intros H. unfold respond. by rewrite H. Qed.

Lemma respond_no_match (serviceName : option string) (r : CatalogResponse) :
  truthy_opt_string (CatalogService.error r) = false ->
  filteredCatalog serviceName (CatalogService.catalog r) = [] ->
  respond serviceName r
  = {| text := if truthy_opt_string serviceName
               then "No services found matching " ++ dquote
                    ++ default "" serviceName ++ dquote
                    ++ ". Showing all available services."
               else "No services available in the catalog.";
       structuredContent :=
         {| serviceName := or_null serviceName;
            catalog := CatalogService.catalog r;
            count := Some (length (CatalogService.catalog r));
            error := None;
            message := Some (if truthy_opt_string serviceName
                             then "No matching services found, showing all"
                             else "No services available") |};
       _meta := widgetMeta pricingWidget |}.
Proof. intros He Hf. unfold respond. by rewrite He, Hf. Qed.

Lemma respond_found (serviceName : option string) (r : CatalogResponse) :
  truthy_opt_string (CatalogService.error r) = false ->
  filteredCatalog serviceName (CatalogService.catalog r) <> [] ->
  respond serviceName r
  = {| text := "Found "
               ++ number_to_string
                    (length (filteredCatalog serviceName (CatalogService.catalog r)))
               ++ " service(s)"
               ++ (if truthy_opt_string serviceName
                   then " matching " ++ dquote ++ default "" serviceName ++ dquote
                   else "")
               ++ ".";
       structuredContent :=
         {| serviceName := or_null serviceName;
            catalog := filteredCatalog serviceName (CatalogService.catalog r);
            count := Some (length (filteredCatalog serviceName (CatalogService.catalog r)));
            error := None;
            message := None |};
       _meta := widgetMeta pricingWidget |}.
Proof.
  intros He Hf. unfold respond. rewrite He.
  by destruct (filteredCatalog serviceName (CatalogService.catalog r)).
Qed.

(** A supplied query is echoed by both texts of a non-error result. *)
Lemma respond_echoes_query (q : string) (r : CatalogResponse) :
  truthy_opt_string (CatalogService.error r) = false ->
  includes (text (respond (Some q) r)) q = true.
Proof.
  intros He. destruct q as [|c q]; [apply includes_empty|].
  destruct (filteredCatalog (Some (String c q)) (CatalogService.catalog r)) eqn:Hf.
  - rewrite respond_no_match by done. cbn [text truthy_opt_string truthy_string default].
    apply (includes_between ("No services found matching " ++ dquote) _
             (dquote ++ ". Showing all available services.")).
    by rewrite !append_assoc.
  - rewrite (respond_found _ _ He) by (by rewrite Hf).
    cbn [text truthy_opt_string truthy_string default].
    apply (includes_between
             ("Found " ++ number_to_string
                            (length (filteredCatalog (Some (String c q))
                                       (CatalogService.catalog r)))
              ++ " service(s)" ++ " matching " ++ dquote) _ (dquote ++ ".")).
    by rewrite !append_assoc.
Qed.

End McpRouteFacts.

(** C1: when the fetch succeeded, the fetched catalog is not empty and the
    filter by the query leaves nothing, the query is a non-empty string and the
    tool returns the whole fetched catalog with its length as count and the
    message that nothing matched. *)
Theorem C1_no_match_returns_full_catalog :
  forall (env : CatalogService.Env) (t : CatalogService.Transport)
         (log log' : list CatalogService.Request)
         (serviceName : option string) (r : CatalogService.CatalogResponse),
    CatalogService.fetchCatalog (McpRoute.catalogService env) t log = (r, log') ->
    truthy_opt_string (CatalogService.error r) = false ->
    McpRoute.filteredCatalog serviceName (CatalogService.catalog r) = [] ->
    CatalogService.catalog r <> [] ->
    exists q,
      serviceName = Some q /\ q <> "" /\
      McpRoute.show_pricing env serviceName t log
      = ({| McpRoute.text :=
              "No services found matching " ++ dquote ++ q ++ dquote
              ++ ". Showing all available services.";
            McpRoute.structuredContent :=
              {| McpRoute.serviceName := Some q;
                 McpRoute.catalog := CatalogService.catalog r;
                 McpRoute.count := Some (length (CatalogService.catalog r));
                 McpRoute.error := None;
                 McpRoute.message := Some "No matching services found, showing all" |};
            McpRoute._meta := McpRoute.widgetMeta McpRoute.pricingWidget |}, log').
Proof.
  intros env t log log' serviceName r Hfetch Herr Hempty Hfull.
  destruct (filteredCatalog_cases serviceName (CatalogService.catalog r))
    as [[_ Hid]|(q & -> & Hq & _)]; [congruence|].
  exists q. split; [done|]. split; [by destruct q|].
  unfold McpRoute.show_pricing, CatalogService.bind, CatalogService.ret.
  rewrite Hfetch, (respond_no_match _ _ Herr Hempty).
  unfold McpRoute.or_null. cbn [truthy_opt_string default]. by rewrite Hq.
Qed.

(** Witness for C1: the body [{ data: [delaware] }] and the query "zzz". *)
Lemma C1_witness :
  exists q,
    Some "zzz" = Some q /\ q <> "" /\
    McpRoute.show_pricing ∅ (Some "zzz")
      (Samples.answering
         (CatalogService.JObject [("data", CatalogService.JArray [Samples.delaware])])) []
    = ({| McpRoute.text :=
            "No services found matching " ++ dquote ++ q ++ dquote
            ++ ". Showing all available services.";
          McpRoute.structuredContent :=
            {| McpRoute.serviceName := Some q;
               McpRoute.catalog := [Samples.delaware];
               McpRoute.count := Some 1;
               McpRoute.error := None;
               McpRoute.message := Some "No matching services found, showing all" |};
          McpRoute._meta := McpRoute.widgetMeta McpRoute.pricingWidget |},
       [CatalogService.request_of (McpRoute.catalogService ∅)]).
Proof.
  apply (C1_no_match_returns_full_catalog ∅ _ [] _ (Some "zzz")
           {| CatalogService.catalog := [Samples.delaware];
              CatalogService.error := None |}).
  - reflexivity.
  - reflexivity.
  - reflexivity.
  - discriminate.
Defined.

(** C7 (as stated, refuted): for the catalog [delaware] and the query "zzz"
    the result is not an error and returns one item, and its text does not state
    that number. *)
Lemma C7_no_match_text_has_no_count :
  McpRoute.error (McpRoute.structuredContent
    (McpRoute.respond (Some "zzz")
       {| CatalogService.catalog := [Samples.delaware]; CatalogService.error := None |}))
  = None
  /\ McpRoute.count (McpRoute.structuredContent
       (McpRoute.respond (Some "zzz")
          {| CatalogService.catalog := [Samples.delaware]; CatalogService.error := None |}))
     = Some 1
  /\ ~ Spec.summary_states_count_and_query (Some "zzz")
         (McpRoute.respond (Some "zzz")
            {| CatalogService.catalog := [Samples.delaware];
               CatalogService.error := None |}).
Proof.
  split; [reflexivity|]. split; [reflexivity|].
  intros [Hcount _]. vm_compute in Hcount. discriminate.
Qed.

(** C7 (amended): every non-error result echoes a supplied query in its text.
    When the filtered list is not empty the text is exactly "Found <n>
    service(s)", then " matching " and the quoted query when a non-empty query
    was supplied, then a full stop, with n the number of items returned, so it
    states the count; when the filtered list is empty the text is exactly one of
    two fixed sentences, neither of which has a place for a count. *)
Theorem C7_summary_text :
  forall (serviceName : option string) (r : CatalogService.CatalogResponse),
    truthy_opt_string (CatalogService.error r) = false ->
    (forall q, serviceName = Some q ->
               includes (McpRoute.text (McpRoute.respond serviceName r)) q = true)
    /\ (McpRoute.filteredCatalog serviceName (CatalogService.catalog r) <> [] ->
        McpRoute.text (McpRoute.respond serviceName r)
        = "Found "
          ++ number_to_string
               (length (McpRoute.catalog
                          (McpRoute.structuredContent (McpRoute.respond serviceName r))))
          ++ " service(s)"
          ++ (if truthy_opt_string serviceName
              then " matching " ++ dquote ++ default "" serviceName ++ dquote
              else "")
          ++ "."
        /\ Spec.summary_states_count_and_query serviceName (McpRoute.respond serviceName r)
        /\ McpRoute.catalog (McpRoute.structuredContent (McpRoute.respond serviceName r))
           = McpRoute.filteredCatalog serviceName (CatalogService.catalog r)
        /\ McpRoute.count (McpRoute.structuredContent (McpRoute.respond serviceName r))
           = Some (length (McpRoute.filteredCatalog serviceName (CatalogService.catalog r))))
    /\ (McpRoute.filteredCatalog serviceName (CatalogService.catalog r) = [] ->
        McpRoute.text (McpRoute.respond serviceName r)
        = if truthy_opt_string serviceName
          then "No services found matching " ++ dquote ++ default "" serviceName
               ++ dquote ++ ". Showing all available services."
          else "No services available in the catalog.").
Proof.
  intros serviceName r Herr.
  assert (Hecho : forall q, serviceName = Some q ->
            includes (McpRoute.text (McpRoute.respond serviceName r)) q = true).
  { intros q ->. by apply respond_echoes_query. }
  split; [done|]. split.
  - intros Hne. split; [|split; [split; [|done]|]].
    + by rewrite (respond_found _ _ Herr Hne).
    + rewrite (respond_found _ _ Herr Hne).
      cbn [McpRoute.text McpRoute.structuredContent McpRoute.catalog].
      apply includes_middle.
    + by rewrite (respond_found _ _ Herr Hne).
  - intros Hempty. by rewrite (respond_no_match _ _ Herr Hempty).
Qed.

(** Witness for C7: the query "delaware" on [delaware; wyoming] finds one
    item, and the text is "Found 1 service(s) matching " followed by the quoted
    query and a full stop. *)
Lemma C7_witness :
  McpRoute.text
    (McpRoute.respond (Some "delaware")
       {| CatalogService.catalog := [Samples.delaware; Samples.wyoming];
          CatalogService.error := None |})
  = "Found 1 service(s) matching " ++ dquote ++ "delaware" ++ dquote ++ "."
  /\ Spec.summary_states_count_and_query (Some "delaware")
       (McpRoute.respond (Some "delaware")
          {| CatalogService.catalog := [Samples.delaware; Samples.wyoming];
             CatalogService.error := None |}).
Proof.
  destruct (C7_summary_text (Some "delaware")
              {| CatalogService.catalog := [Samples.delaware; Samples.wyoming];
                 CatalogService.error := None |} eq_refl) as (_ & Hfound & _).
  destruct Hfound as (Htext & Hstates & _); [vm_compute; discriminate|].
  split; [exact Htext|exact Hstates].
Defined.

(** ** The widget's selection *)

Section PageFacts.
Import CatalogService Page.

(** The identifier the lookup searches for: the stored one, when truthy. *)
Lemma selectedCard_some (widgetState : option WidgetState)
    (catalog : list CatalogItem) (item : CatalogItem) :
  selectedCard widgetState catalog = Some item ->
  In item catalog
  /\ widgetState ≫= selectedCardId = Some (id item)
  /\ id item <> 0%Z.
Proof.
  unfold selectedCard. destruct widgetState as [[[n|]]|]; cbn; try done.
  unfold truthy_number. destruct (Z.eqb_spec n 0) as [->|Hn]; cbn; [done|].
  intros [Hin Hid%Z.eqb_eq]%find_some. by subst.
Qed.

Lemma selectedCard_miss (widgetState : option WidgetState) (catalog : list CatalogItem) :
  (forall item, In item catalog -> widgetState ≫= selectedCardId <> Some (id item)) ->
  selectedCard widgetState catalog = None.
Proof.
  intros Hmiss. destruct (selectedCard widgetState catalog) as [item|] eqn:Hsel; [|done].
  apply selectedCard_some in Hsel as (Hin & Hid & _). by destruct (Hmiss item Hin).
Qed.

(** The lookup returns the first item of the list with the stored identifier. *)
Lemma selectedCard_hit (n : Z) (before after : list CatalogItem) (item : CatalogItem) :
  n <> 0%Z -> id item = n ->
  (forall x, In x before -> id x <> n) ->
  selectedCard (Some {| selectedCardId := Some n |}) (before ++ item :: after)%list
  = Some item.
Proof.
  intros Hn Hid Hbefore. unfold selectedCard. cbn [selectedCardId].
  unfold truthy_number. rewrite (proj2 (Z.eqb_neq n 0) Hn). cbn [negb].
  induction before as [|x before IH]; cbn [app find].
  - by rewrite (proj2 (Z.eqb_eq _ _) Hid).
  - rewrite (proj2 (Z.eqb_neq (id x) n)) by (apply Hbefore; by left).
    apply IH. intros y Hy. apply Hbefore. by right.
Qed.

End PageFacts.

(** C8: whatever set is displayed and whatever selection is stored, a
    resolved selected item is an item of the displayed set and carries the stored
    identifier; when no item of the displayed set carries the stored identifier
    the selected item is absent (a value, not a failure). Selecting item 7 and
    then displaying a set without item 7 leaves no selected item. *)
Theorem C8_selection_resolves_in_displayed_set :
  forall (toolOutput : option Page.ToolOutput)
         (localCatalog : list CatalogService.CatalogItem)
         (widgetState : option Page.WidgetState),
    (forall item,
        Page.selectedCard widgetState (Page.displayed toolOutput localCatalog) = Some item ->
        In item (Page.displayed toolOutput localCatalog)
        /\ widgetState ≫= Page.selectedCardId = Some (CatalogService.id item))
    /\ ((forall item, In item (Page.displayed toolOutput localCatalog) ->
           widgetState ≫= Page.selectedCardId <> Some (CatalogService.id item)) ->
        Page.selectedCard widgetState (Page.displayed toolOutput localCatalog) = None).
Proof.
  intros toolOutput localCatalog widgetState. split.
  - intros item Hsel. apply selectedCard_some in Hsel. tauto.
  - apply selectedCard_miss.
Qed.

(** Witness for C8: item 7 ([delaware]) is selected while the tool output
    shows [delaware; wyoming]; a new tool output with [wyoming] alone arrives. *)
Lemma C8_witness :
  Page.selectedCard (Page.handleCardClick Samples.delaware None)
    (Page.displayed
       (Some {| Page.serviceName := None;
                Page.catalog := Some [Samples.delaware; Samples.wyoming];
                Page.error := None; Page.count := Some 2; Page.message := None |}) [])
  = Some Samples.delaware
  /\ Page.selectedCard (Page.handleCardClick Samples.delaware None)
       (Page.displayed
          (Some {| Page.serviceName := None;
                   Page.catalog := Some [Samples.wyoming];
                   Page.error := None; Page.count := Some 1; Page.message := None |}) [])
     = None.
Proof.
  split; [reflexivity|].
  apply C8_selection_resolves_in_displayed_set.
  intros item [<-|[]]. discriminate.
Defined.

(** C10: an item whose identifier is 0 cannot be selected: after the click
    handler stored its identifier the lookup is skipped (0 is falsy) and the
    selected item is absent, although the item is displayed. *)
Theorem C10_item_zero_never_selected :
  forall (toolOutput : option Page.ToolOutput)
         (localCatalog : list CatalogService.CatalogItem)
         (widgetState : option Page.WidgetState)
         (item : CatalogService.CatalogItem),
    In item (Page.displayed toolOutput localCatalog) ->
    CatalogService.id item = 0%Z ->
    Page.handleCardClick item widgetState
    = Some {| Page.selectedCardId := Some 0%Z |}
    /\ Page.selectedCard (Page.handleCardClick item widgetState)
         (Page.displayed toolOutput localCatalog) = None.
Proof.
  intros toolOutput localCatalog widgetState item _ Hid.
  unfold Page.handleCardClick, Page.selectedCard. cbn [Page.selectedCardId].
  by rewrite Hid.
Qed.

(** Witness for C10: the locally fetched catalog [zero; delaware] is displayed
    and the item with identifier 0 is clicked. *)
Lemma C10_witness :
  Page.handleCardClick Samples.zero None = Some {| Page.selectedCardId := Some 0%Z |}
  /\ Page.selectedCard (Page.handleCardClick Samples.zero None)
       (Page.displayed None [Samples.zero; Samples.delaware]) = None.
Proof.
  apply (C10_item_zero_never_selected None [Samples.zero; Samples.delaware] None Samples.zero).
  - left. reflexivity.
  - reflexivity.
Defined.

(** * Further properties of the code *)

(** ** Strings: case folding, trimming, containment *)

Lemma lower_ascii_idemp (c : ascii) : lower_ascii (lower_ascii c) = lower_ascii c.
Proof. destruct c as [[] [] [] [] [] [] [] []]; reflexivity. Qed.

Lemma lower_ascii_whitespace (c : ascii) :
  is_whitespace (lower_ascii c) = is_whitespace c.
Proof. destruct c as [[] [] [] [] [] [] [] []]; reflexivity. Qed.

Lemma toLowerCase_idemp (s : string) : toLowerCase (toLowerCase s) = toLowerCase s.
Proof.
  induction s as [|c s IH]; [done|].
  cbn [toLowerCase]. by rewrite lower_ascii_idemp, IH.
Qed.

Lemma toLowerCase_app (s t : string) :
  toLowerCase (s ++ t) = toLowerCase s ++ toLowerCase t.
Proof.
  induction s as [|c s IH]; [done|].
  rewrite append_cons. cbn [toLowerCase]. by rewrite append_cons, IH.
Qed.

Lemma toLowerCase_truthy (s : string) :
  truthy_string (toLowerCase s) = truthy_string s.
Proof. by destruct s. Qed.

Lemma trimStart_lower (s : string) :
  trimStart (toLowerCase s) = toLowerCase (trimStart s).
Proof.
  induction s as [|c s IH]; [done|].
  cbn [toLowerCase trimStart]. rewrite lower_ascii_whitespace.
  by destruct (is_whitespace c).
Qed.

Lemma trimEnd_lower (s : string) :
  trimEnd (toLowerCase s) = toLowerCase (trimEnd s).
Proof.
  induction s as [|c s IH]; [done|].
  cbn [toLowerCase trimEnd]. rewrite IH, lower_ascii_whitespace.
  destruct (trimEnd s); cbn [toLowerCase]; [by destruct (is_whitespace c)|done].
Qed.

Lemma trim_lower (s : string) : trim (toLowerCase s) = toLowerCase (trim s).
Proof. unfold trim. by rewrite trimStart_lower, trimEnd_lower. Qed.

Lemma trimStart_clean (s : string) : starts_clean (trimStart s) = true.
Proof.
  induction s as [|c s IH]; [done|].
  cbn [trimStart]. destruct (is_whitespace c) eqn:Hc; [done|].
  cbn [starts_clean]. by rewrite Hc.
Qed.

Lemma trimStart_of_clean (s : string) : starts_clean s = true -> trimStart s = s.
Proof.
  destruct s as [|c s]; [done|]. cbn [starts_clean trimStart].
  by destruct (is_whitespace c).
Qed.

Lemma trimEnd_clean (s : string) :
  starts_clean s = true -> starts_clean (trimEnd s) = true.
Proof.
  destruct s as [|c s]; [done|]. cbn [starts_clean trimEnd]. intros Hc.
  destruct (trimEnd s); [|done].
  destruct (is_whitespace c) eqn:Hw; [done|]. cbn [starts_clean]. by rewrite Hw.
Qed.

Lemma trimEnd_cons (c : ascii) (s : string) :
  trimEnd (String c s)
  = match trimEnd s with
    | EmptyString => if is_whitespace c then EmptyString else String c EmptyString
    | t => String c t
    end.
Proof. reflexivity. Qed.

Lemma trimEnd_idemp (s : string) : trimEnd (trimEnd s) = trimEnd s.
Proof.
  induction s as [|c s IH]; [done|].
  rewrite trimEnd_cons. destruct (trimEnd s) as [|d t] eqn:Ht.
  - destruct (is_whitespace c) eqn:Hc; [done|]. cbn [trimEnd]. by rewrite Hc.
  - rewrite trimEnd_cons. by rewrite IH.
Qed.

Lemma trim_idemp (s : string) : trim (trim s) = trim s.
Proof.
  unfold trim.
  rewrite (trimStart_of_clean (trimEnd (trimStart s)))
    by apply trimEnd_clean, trimStart_clean.
  apply trimEnd_idemp.
Qed.

Lemma append_empty_r (s : string) : s ++ "" = s.
Proof. induction s as [|c s IH]; [done|]. by rewrite append_cons, IH. Qed.

Lemma includes_refl (s : string) : includes s s = true.
Proof. apply (includes_between "" s ""). by rewrite append_empty_r. Qed.

Lemma includes_trans (s t u : string) :
  includes s t = true -> includes t u = true -> includes s u = true.
Proof.
  rewrite !includes_iff. intros (p1 & q1 & ->) (p2 & q2 & ->).
  exists (p1 ++ p2), (q2 ++ q1). by rewrite !append_assoc.
Qed.

(** ** [getVariantImageUrl]: order of the keywords *)

Section ImageOrderFacts.
Import ImageUtils.

Lemma scan_cons_keyword (k u : string) (rest : list (string * string)) (text : string) :
  k <> "default" ->
  scan ((k, u) :: rest) text = if includes text k then Some u else scan rest text.
Proof.
  intros Hk. cbn [scan]. by destruct (String.eqb_spec k "default").
Qed.

Lemma scan_skips (before rest : list (string * string)) (text : string) :
  (forall k u, In (k, u) before -> k <> "default" -> includes text k = false) ->
  scan (before ++ rest)%list text = scan rest text.
Proof.
  induction before as [|[k u] before IH]; intros Hnone; [done|].
  cbn [app scan]. destruct (String.eqb_spec k "default") as [->|Hk]; cbn [negb andb].
  - apply IH. intros k' u' ?. apply (Hnone k' u'). by right.
  - rewrite (Hnone k u) by (done || by left). apply IH.
    intros k' u' ?. apply (Hnone k' u'). by right.
Qed.

Lemma or_string_lower_some (o : option string) :
  or_string (toLowerCase <$> o) "" = toLowerCase (or_string o "").
Proof. by destruct o as [[|]|]. Qed.

Lemma url_cases (u : string) :
  (exists k, In (k, u) locationImageMap) ->
  In u [url_new_york; url_nyc_skyline; url_san_francisco; url_chicago; url_charleston].
Proof.
  intros [k Hin]. cbn [In locationImageMap] in Hin.
  repeat (destruct Hin as [Heq|Hin]; [injection Heq as <- <-; cbn; tauto|]).
  destruct Hin.
Qed.

End ImageOrderFacts.

(** X1: the loop is first-match in declaration order: when a keyword occurs in
    the search text and no keyword declared before it does, the function returns
    that keyword's URL, whatever is declared after it. *)
Theorem image_first_declared_keyword_wins :
  forall (variantName serviceName : option string)
         (before after : list (string * string)) (location imageUrl : string),
    ImageUtils.locationImageMap = (before ++ (location, imageUrl) :: after)%list ->
    location <> "default" ->
    includes (ImageUtils.searchText variantName serviceName) location = true ->
    (forall k u, In (k, u) before -> k <> "default" ->
                 includes (ImageUtils.searchText variantName serviceName) k = false) ->
    ImageUtils.getVariantImageUrl variantName serviceName = imageUrl.
Proof.
  intros v s before after location imageUrl Hmap Hloc Hin Hbefore.
  unfold ImageUtils.getVariantImageUrl. rewrite Hmap, (scan_skips _ _ _ Hbefore).
  by rewrite (scan_cons_keyword _ _ _ _ Hloc), Hin.
Qed.

(** Witness for X1: "San Francisco" with an empty service name. *)
Lemma image_first_declared_keyword_wins_witness :
  ImageUtils.getVariantImageUrl (Some "San Francisco") (Some "")
  = ImageUtils.url_san_francisco.
Proof.
  apply (image_first_declared_keyword_wins _ _
           (firstn 4 ImageUtils.locationImageMap) (skipn 5 ImageUtils.locationImageMap)
           "san francisco").
  - reflexivity.
  - discriminate.
  - reflexivity.
  - intros k u Hin _. cbn in Hin.
    repeat (destruct Hin as [Heq|Hin]; [injection Heq as <- <-; reflexivity|]).
    destruct Hin.
Defined.

(** X2: the function always returns one of the five URLs of the map, and never
    the empty string. *)
Theorem image_url_is_one_of_the_map :
  forall (variantName serviceName : option string),
    In (ImageUtils.getVariantImageUrl variantName serviceName)
       [ImageUtils.url_new_york; ImageUtils.url_nyc_skyline;
        ImageUtils.url_san_francisco; ImageUtils.url_chicago;
        ImageUtils.url_charleston]
    /\ ImageUtils.getVariantImageUrl variantName serviceName <> "".
Proof.
  intros v s.
  pose proof (url_cases _ (getVariantImageUrl_total v s)) as Hin.
  split; [done|]. cbn [In] in Hin.
  repeat (destruct Hin as [<-|Hin]; [discriminate|]). destruct Hin.
Qed.

(** X3: for names made of ASCII characters the lookup is case-insensitive:
    lower-casing both names first changes nothing. An absent name counts as the
    empty name. *)
Theorem image_lookup_ignores_case :
  forall (variantName serviceName : option string),
    is_ascii_opt variantName = true ->
    is_ascii_opt serviceName = true ->
    ImageUtils.getVariantImageUrl (toLowerCase <$> variantName) (toLowerCase <$> serviceName)
    = ImageUtils.getVariantImageUrl variantName serviceName
    /\ ImageUtils.getVariantImageUrl None serviceName
       = ImageUtils.getVariantImageUrl (Some "") serviceName
    /\ ImageUtils.getVariantImageUrl variantName None
       = ImageUtils.getVariantImageUrl variantName (Some "").
Proof.
  intros v s _ _. split; [|split].
  - unfold ImageUtils.getVariantImageUrl, ImageUtils.searchText.
    rewrite !or_string_lower_some. by rewrite !toLowerCase_app, !toLowerCase_idemp.
  - reflexivity.
  - by destruct v as [[|]|].
Qed.

(** Witness for X3: "NEW YORK" and "new york" with the service "LLC". *)
Lemma image_lookup_ignores_case_witness :
  ImageUtils.getVariantImageUrl (toLowerCase <$> Some "NEW YORK") (toLowerCase <$> Some "LLC")
  = ImageUtils.getVariantImageUrl (Some "NEW YORK") (Some "LLC")
  /\ ImageUtils.getVariantImageUrl None (Some "LLC")
     = ImageUtils.getVariantImageUrl (Some "") (Some "LLC")
  /\ ImageUtils.getVariantImageUrl (Some "NEW YORK") None
     = ImageUtils.getVariantImageUrl (Some "NEW YORK") (Some "").
Proof. apply image_lookup_ignores_case; reflexivity. Defined.

(** X4: two entries of the map can never be selected, because an earlier
    keyword is contained in theirs. A text with "new york city" resolves through
    "new york", and a text with "delaware" resolves through "la" or an earlier
    keyword: never to the Chicago image the "delaware" entry holds. *)
Theorem image_shadowed_entries :
  forall (variantName serviceName : option string),
    (includes (ImageUtils.searchText variantName serviceName) "new york city" = true ->
     ImageUtils.getVariantImageUrl variantName serviceName = ImageUtils.url_new_york)
    /\ (includes (ImageUtils.searchText variantName serviceName) "delaware" = true ->
        In (ImageUtils.getVariantImageUrl variantName serviceName)
           [ImageUtils.url_new_york; ImageUtils.url_nyc_skyline;
            ImageUtils.url_san_francisco]
        /\ ImageUtils.getVariantImageUrl variantName serviceName <> ImageUtils.url_chicago).
Proof.
  intros v s. unfold ImageUtils.getVariantImageUrl.
  generalize (ImageUtils.searchText v s). intros text. split.
  - intros Hnyc.
    assert (includes text "new york" = true) as Hny
      by (eapply includes_trans; [exact Hnyc|reflexivity]).
    unfold ImageUtils.locationImageMap. by rewrite scan_cons_keyword, Hny.
  - intros Hde.
    assert (includes text "la" = true) as Hla
      by (eapply includes_trans; [exact Hde|reflexivity]).
    assert (In (match ImageUtils.scan ImageUtils.locationImageMap text with
                | Some imageUrl => imageUrl
                | None => ImageUtils.locationImageMap_default
                end)
              [ImageUtils.url_new_york; ImageUtils.url_nyc_skyline;
               ImageUtils.url_san_francisco]) as Hin.
    { unfold ImageUtils.locationImageMap.
      repeat (rewrite scan_cons_keyword by done;
              match goal with
              | |- context [if includes text ?k then _ else _] =>
                  destruct (includes text k) eqn:?; [cbn [In]; auto|try congruence]
              end). }
    split; [done|]. cbn [In] in Hin. intros Heq. rewrite Heq in Hin.
    repeat (destruct Hin as [Hin|Hin]; [discriminate|]). destruct Hin.
Qed.

(** Witness for X4: the variant "Delaware LLC" of "USA Company Registration"
    gets the New York skyline image (through "ny" in "company"), not the image
    of the "delaware" entry. *)
Lemma image_shadowed_entries_witness :
  In (ImageUtils.getVariantImageUrl (Some "Delaware LLC") (Some "USA Company Registration"))
     [ImageUtils.url_new_york; ImageUtils.url_nyc_skyline; ImageUtils.url_san_francisco]
  /\ ImageUtils.getVariantImageUrl (Some "Delaware LLC") (Some "USA Company Registration")
     <> ImageUtils.url_chicago.
Proof.
  apply (proj2 (image_shadowed_entries (Some "Delaware LLC")
                  (Some "USA Company Registration"))).
  reflexivity.
Defined.

(** ** [fetchCatalog]: what every call returns *)

Section FetchCatalogFacts.
Import CatalogService.

(** The response of a call with a truthy key, by the outcome of the request. *)
Lemma fetchCatalog_response (self : CatalogService) (t : Transport) (log : list Request) :
  truthy_opt_string (apiKey self) = true ->
  (fetchCatalog self t log).1
  = match t (request_of self) with
    | inl e => caught e
    | inr response =>
        if ok response then
          match json response with
          | inl e => caught e
          | inr data =>
              match normalize data with
              | inl e => caught e
              | inr items => {| catalog := items; error := None |}
              end
          end
        else {| catalog := [];
                error := Some ("Failed to fetch catalog: "
                               ++ number_to_string (status response)
                               ++ " " ++ statusText response) |}
    end.
Proof.
  intros Hkey. unfold fetchCatalog. rewrite Hkey. cbn [negb].
  unfold bind, fetch. destruct (t _) as [e|response]; [done|].
  destruct (ok response); cbn [negb]; [|done].
  destruct (json response) as [e|data]; [done|].
  by destruct (normalize data).
Qed.

Lemma fetchCatalog_without_key (self : CatalogService) (t : Transport) (log : list Request) :
  truthy_opt_string (apiKey self) = false ->
  fetchCatalog self t log
  = ({| catalog := []; error := Some missing_key_error |}, log).
Proof. intros Hkey. unfold fetchCatalog. by rewrite Hkey. Qed.

End FetchCatalogFacts.

(** X5: on every path of [fetchCatalog] an error comes with the empty catalog:
    items and an error message are never returned together. *)
Theorem fetchCatalog_error_means_no_items :
  forall (self : CatalogService.CatalogService) (t : CatalogService.Transport)
         (log : list CatalogService.Request),
    CatalogService.error (CatalogService.fetchCatalog self t log).1 = None
    \/ CatalogService.catalog (CatalogService.fetchCatalog self t log).1 = [].
Proof.
  intros self t log.
  destruct (truthy_opt_string (CatalogService.apiKey self)) eqn:Hkey.
  - rewrite (fetchCatalog_response _ _ _ Hkey).
    destruct (t _) as [e|response]; [by right|].
    destruct (CatalogService.ok response); [|by right].
    destruct (CatalogService.json response) as [e|data]; [by right|].
    destruct (CatalogService.normalize data); [by right|by left].
  - right. by rewrite (fetchCatalog_without_key _ t log Hkey).
Qed.

(** X6: [fetchCatalog] reports no error exactly when the key is set, the
    request resolved with an ok response, the body parsed, and the parsed body is
    not [null]. *)
Theorem fetchCatalog_succeeds_iff :
  forall (self : CatalogService.CatalogService) (t : CatalogService.Transport)
         (log : list CatalogService.Request),
    CatalogService.error (CatalogService.fetchCatalog self t log).1 = None
    <-> truthy_opt_string (CatalogService.apiKey self) = true
        /\ exists response data,
             t (CatalogService.request_of self) = inr response
             /\ CatalogService.ok response = true
             /\ CatalogService.json response = inr data
             /\ data <> CatalogService.JNull.
Proof.
  intros self t log.
  destruct (truthy_opt_string (CatalogService.apiKey self)) eqn:Hkey.
  - rewrite (fetchCatalog_response _ _ _ Hkey).
    destruct (t _) as [e|response] eqn:Ht.
    { split; [done|]. intros [_ (r & d & ? & _)]. congruence. }
    destruct (CatalogService.ok response) eqn:Hok.
    2:{ split; [done|]. intros [_ (r & d & ? & ? & _)]. congruence. }
    destruct (CatalogService.json response) as [e|data] eqn:Hjson.
    { split; [done|]. intros [_ (r & d & ? & ? & ? & _)]. congruence. }
    destruct (CatalogService.normalize data) as [e|items] eqn:Hn.
    + apply normalize_throws_only_on_null in Hn as ->.
      split; [done|]. intros [_ (r & d & ? & _ & ? & ?)]. congruence.
    + split; [|done]. intros _. split; [done|]. exists response, data.
      repeat split; try done. by intros ->.
  - rewrite (fetchCatalog_without_key _ t log Hkey). split; [done|]. by intros [? _].
Qed.

(** X7: when the body is an object, a [catalog] array wins over a [data]
    array; [data] is used only when [catalog] is not an array. *)
Theorem normalize_prefers_catalog :
  forall (props : list (string * CatalogService.Json))
         (xs ys : list CatalogService.CatalogItem),
    CatalogService.own_property props "data" = Some (CatalogService.JArray ys) ->
    (CatalogService.own_property props "catalog" = Some (CatalogService.JArray xs) ->
     CatalogService.normalize (CatalogService.JObject props) = inr xs)
    /\ (CatalogService.isArray (CatalogService.own_property props "catalog") = false ->
        CatalogService.normalize (CatalogService.JObject props) = inr ys).
Proof.
  intros props xs ys Hd. split.
  - apply normalize_catalog.
  - intros Hc. by apply normalize_data.
Qed.

(** Witness for X7: [{ catalog: [delaware], data: [wyoming] }]. *)
Lemma normalize_prefers_catalog_witness :
  CatalogService.normalize
    (CatalogService.JObject
       [("catalog", CatalogService.JArray [Samples.delaware]);
        ("data", CatalogService.JArray [Samples.wyoming])])
  = inr [Samples.delaware].
Proof.
  apply (normalize_prefers_catalog _ [Samples.delaware] [Samples.wyoming]); reflexivity.
Defined.

(** ** The tool callback: invariants of every result, and the request log *)

Section ToolFacts.
Import CatalogService McpRoute.

Lemma matches_needle (q q' : string) (item : CatalogItem) :
  trim (toLowerCase q) = trim (toLowerCase q') -> matches q item = matches q' item.
Proof. intros H. unfold matches. cbv zeta. by rewrite H. Qed.

Lemma matches_empty_needle (q : string) (item : CatalogItem) :
  trim (toLowerCase q) = "" -> matches q item = true.
Proof. intros H. unfold matches. cbv zeta. by rewrite H, includes_empty. Qed.

Lemma filter_all (f : CatalogItem -> bool) (l : list CatalogItem) :
  (forall x, f x = true) -> List.filter f l = l.
Proof.
  intros Hf. induction l as [|x l IH]; [done|].
  cbn [List.filter]. by rewrite Hf, IH.
Qed.

Lemma filter_filter (f : CatalogItem -> bool) (l : list CatalogItem) :
  List.filter f (List.filter f l) = List.filter f l.
Proof.
  induction l as [|x l IH]; [done|].
  cbn [List.filter]. destruct (f x) eqn:Hx; [|done].
  cbn [List.filter]. by rewrite Hx, IH.
Qed.

Lemma filter_ext_bool (f g : CatalogItem -> bool) (l : list CatalogItem) :
  (forall x, f x = g x) -> List.filter f l = List.filter g l.
Proof.
  intros Hfg. induction l as [|x l IH]; [done|].
  cbn [List.filter]. by rewrite Hfg, IH.
Qed.

End ToolFacts.

(** X8: filtering twice by the same query gives what filtering once gives. *)
Theorem filter_idempotent :
  forall (serviceName : option string) (catalog : list CatalogService.CatalogItem),
    McpRoute.filteredCatalog serviceName (McpRoute.filteredCatalog serviceName catalog)
    = McpRoute.filteredCatalog serviceName catalog.
Proof.
  intros serviceName catalog.
  destruct (filteredCatalog_cases serviceName catalog) as [[Hq Hid]|(q & -> & Hq & _)].
  - rewrite Hid. apply Hid.
  - unfold McpRoute.filteredCatalog. rewrite Hq. apply filter_filter.
Qed.

(** X9: for a query made of ASCII characters the filter does not depend on
    the case of the query nor on ASCII white space around it: the lower-cased
    query and the trimmed query select the same items as the query itself. *)
Theorem filter_ignores_case_and_padding :
  forall (q : string) (catalog : list CatalogService.CatalogItem),
    is_ascii q = true ->
    McpRoute.filteredCatalog (Some (toLowerCase q)) catalog
    = McpRoute.filteredCatalog (Some q) catalog
    /\ McpRoute.filteredCatalog (Some (trim q)) catalog
       = McpRoute.filteredCatalog (Some q) catalog.
Proof.
  intros q catalog _. unfold McpRoute.filteredCatalog. split.
  - rewrite toLowerCase_truthy. destruct (truthy_string q); [|done].
    apply filter_ext_bool. intros item. apply matches_needle.
    by rewrite toLowerCase_idemp.
  - assert (Hneedle : trim (toLowerCase (trim q)) = trim (toLowerCase q))
      by (by rewrite !trim_lower, trim_idemp).
    destruct (truthy_string q) eqn:Hq.
    + destruct (trim q) as [|c t] eqn:Ht; cbn [truthy_string].
      * symmetry. apply filter_all. intros item. apply matches_empty_needle.
        by rewrite trim_lower, Ht.
      * apply filter_ext_bool. intros item. by apply matches_needle.
    + by destruct q.
Qed.

(** Witness for X9: the query "  DelaWare " on [delaware; wyoming]. *)
Lemma filter_ignores_case_and_padding_witness :
  McpRoute.filteredCatalog (Some (toLowerCase "  DelaWare "))
    [Samples.delaware; Samples.wyoming]
  = McpRoute.filteredCatalog (Some "  DelaWare ") [Samples.delaware; Samples.wyoming]
  /\ McpRoute.filteredCatalog (Some (trim "  DelaWare "))
       [Samples.delaware; Samples.wyoming]
     = McpRoute.filteredCatalog (Some "  DelaWare ") [Samples.delaware; Samples.wyoming].
Proof. apply filter_ignores_case_and_padding. reflexivity. Defined.

(** X10: an item is in the filtered list exactly when it is in the catalog and
    the query, lower-cased and trimmed, is a substring of one of its three
    lower-cased fields. *)
Theorem filter_membership :
  forall (q : string) (catalog : list CatalogService.CatalogItem)
         (item : CatalogService.CatalogItem),
    In item (McpRoute.filteredCatalog (Some q) catalog)
    <-> In item catalog /\ Spec.keeps q item.
Proof.
  intros q catalog item. unfold McpRoute.filteredCatalog.
  destruct q as [|c q]; cbn [truthy_string].
  - pose proof (keeps_empty_query item). tauto.
  - by rewrite filter_In, matches_keeps.
Qed.

Section RespondFacts.
Import CatalogService McpRoute.

(** The result of the callback body, by its three cases. *)
Lemma respond_cases (serviceName : option string) (r : CatalogResponse) :
  (truthy_opt_string (CatalogService.error r) = true
   /\ structuredContent (respond serviceName r)
      = {| serviceName := or_null serviceName; catalog := []; count := None;
           error := CatalogService.error r; message := None |})
  \/ (truthy_opt_string (CatalogService.error r) = false
      /\ filteredCatalog serviceName (CatalogService.catalog r) = []
      /\ structuredContent (respond serviceName r)
         = {| serviceName := or_null serviceName;
              catalog := CatalogService.catalog r;
              count := Some (length (CatalogService.catalog r));
              error := None;
              message := Some (if truthy_opt_string serviceName
                               then "No matching services found, showing all"
                               else "No services available") |})
  \/ (truthy_opt_string (CatalogService.error r) = false
      /\ filteredCatalog serviceName (CatalogService.catalog r) <> []
      /\ structuredContent (respond serviceName r)
         = {| serviceName := or_null serviceName;
              catalog := filteredCatalog serviceName (CatalogService.catalog r);
              count := Some (length (filteredCatalog serviceName (CatalogService.catalog r)));
              error := None;
              message := None |}).
Proof.
  destruct (truthy_opt_string (CatalogService.error r)) eqn:He.
  - left. split; [done|]. unfold respond. by rewrite He.
  - right. destruct (filteredCatalog serviceName (CatalogService.catalog r)) eqn:Hf.
    + left. by rewrite (respond_no_match _ _ He Hf).
    + right. rewrite (respond_found _ _ He) by (by rewrite Hf). by rewrite Hf.
Qed.

Lemma filteredCatalog_sublist (serviceName : option string) (catalog : list CatalogItem) :
  filteredCatalog serviceName catalog `sublist_of` catalog.
Proof.
  destruct (filteredCatalog_cases serviceName catalog) as [[_ ->]|(q & _ & _ & ->)];
    [done|apply filter_sublist].
Qed.

End RespondFacts.

(** X11: in every result of the tool the returned catalog is a subsequence of
    the fetched one, a count, when present, is the length of the returned
    catalog, and an error result carries neither items nor count. *)
Theorem tool_result_invariants :
  forall (serviceName : option string) (r : CatalogService.CatalogResponse),
    McpRoute.catalog (McpRoute.structuredContent (McpRoute.respond serviceName r))
      `sublist_of` CatalogService.catalog r
    /\ (McpRoute.count (McpRoute.structuredContent (McpRoute.respond serviceName r)) = None
        \/ McpRoute.count (McpRoute.structuredContent (McpRoute.respond serviceName r))
           = Some (length (McpRoute.catalog
                             (McpRoute.structuredContent (McpRoute.respond serviceName r)))))
    /\ (McpRoute.error (McpRoute.structuredContent (McpRoute.respond serviceName r)) = None
        \/ McpRoute.catalog (McpRoute.structuredContent (McpRoute.respond serviceName r)) = []
           /\ McpRoute.count (McpRoute.structuredContent (McpRoute.respond serviceName r))
              = None).
Proof.
  intros serviceName r.
  destruct (respond_cases serviceName r) as [[_ ->]|[(_ & _ & ->)|(_ & _ & ->)]];
    cbn [McpRoute.catalog McpRoute.count McpRoute.error].
  - split; [apply sublist_nil_l|]. split; [by left|by right].
  - split; [done|]. split; [by right|by left].
  - split; [apply filteredCatalog_sublist|]. split; [by right|by left].
Qed.

Section NeverEmptyFacts.
Import CatalogService McpRoute.

Lemma respond_keeps_items (serviceName : option string) (r : CatalogResponse) :
  truthy_opt_string (CatalogService.error r) = false ->
  CatalogService.catalog r <> [] ->
  error (structuredContent (respond serviceName r)) = None
  /\ catalog (structuredContent (respond serviceName r)) <> [].
Proof.
  intros He Hne.
  destruct (respond_cases serviceName r) as [[Ht _]|[(_ & _ & ->)|(_ & Hf & ->)]];
    [congruence|done|done].
Qed.

End NeverEmptyFacts.

(** X12: the tool never hides a catalog: when the fetch reported no error and
    returned items, the result carries no error and at least one item, whatever
    the query. *)
Theorem tool_never_returns_empty_for_nonempty_catalog :
  forall (serviceName : option string) (r : CatalogService.CatalogResponse),
    truthy_opt_string (CatalogService.error r) = false ->
    CatalogService.catalog r <> [] ->
    McpRoute.error (McpRoute.structuredContent (McpRoute.respond serviceName r)) = None
    /\ McpRoute.catalog (McpRoute.structuredContent (McpRoute.respond serviceName r)) <> [].
Proof.
  intros serviceName r He Hne. by apply respond_keeps_items.
Qed.

(** Witness for X12: the catalog [delaware] and a query that matches nothing. *)
Lemma tool_never_returns_empty_witness :
  McpRoute.error (McpRoute.structuredContent
    (McpRoute.respond (Some "zzz")
       {| CatalogService.catalog := [Samples.delaware]; CatalogService.error := None |}))
  = None
  /\ McpRoute.catalog (McpRoute.structuredContent
       (McpRoute.respond (Some "zzz")
          {| CatalogService.catalog := [Samples.delaware];
             CatalogService.error := None |})) <> [].
Proof.
  apply tool_never_returns_empty_for_nonempty_catalog; [reflexivity|discriminate].
Defined.

(** X13: nothing is cached between invocations: each call of the tool sends
    exactly one request, so two calls in a row send the same request twice. *)
Theorem tool_refetches_on_every_call :
  forall (env : CatalogService.Env) (q1 q2 : option string)
         (t : CatalogService.Transport) (log : list CatalogService.Request),
    (McpRoute.show_pricing env q1 t log).2
    = (log ++ [CatalogService.request_of (McpRoute.catalogService env)])%list
    /\ (CatalogService.bind (McpRoute.show_pricing env q1)
          (fun _ => McpRoute.show_pricing env q2) t log).2
       = (log ++ [CatalogService.request_of (McpRoute.catalogService env);
                  CatalogService.request_of (McpRoute.catalogService env)])%list.
Proof.
  intros env q1 q2 t log.
  assert (Hone : forall q l,
            (McpRoute.show_pricing env q t l).2
            = (l ++ [CatalogService.request_of (McpRoute.catalogService env)])%list).
  { intros q l. unfold McpRoute.show_pricing, CatalogService.bind, CatalogService.ret.
    pose proof (fetchCatalog_sends_one (McpRoute.catalogService env) t l eq_refl) as H.
    by destruct (CatalogService.fetchCatalog _ t l). }
  split; [apply Hone|].
  unfold CatalogService.bind at 1. pose proof (Hone q1 log) as H1.
  destruct (McpRoute.show_pricing env q1 t log) as [res log1]. cbn [snd] in H1.
  rewrite Hone, H1. by rewrite <- app_assoc.
Qed.

(** ** The local endpoint *)

(** X14: the endpoint answers 200 with a catalog and no error, or 500 with a
    non-empty error and no catalog, and sends one request to the remote source;
    the status is 500 exactly when [fetchCatalog] reported a non-empty error. *)
Theorem endpoint_reply_shapes :
  forall (env : CatalogService.Env) (t : CatalogService.Transport)
         (log : list CatalogService.Request),
    (ApiCatalog.POST env t log).2
    = (log ++ [CatalogService.request_of (CatalogService.constructor env)])%list
    /\ ((ApiCatalog.POST env t log).1
        = {| ApiCatalog.api_status := 200;
             ApiCatalog.api_body :=
               {| ApiCatalog.body_catalog :=
                    Some (CatalogService.catalog
                            (CatalogService.fetchCatalog (CatalogService.constructor env) t log).1);
                  ApiCatalog.body_error := None |} |}
        /\ truthy_opt_string
             (CatalogService.error
                (CatalogService.fetchCatalog (CatalogService.constructor env) t log).1) = false
        \/ (ApiCatalog.POST env t log).1
           = {| ApiCatalog.api_status := 500;
                ApiCatalog.api_body :=
                  {| ApiCatalog.body_catalog := None;
                     ApiCatalog.body_error :=
                       CatalogService.error
                         (CatalogService.fetchCatalog (CatalogService.constructor env) t log).1 |} |}
           /\ truthy_opt_string
                (CatalogService.error
                   (CatalogService.fetchCatalog (CatalogService.constructor env) t log).1) = true).
Proof.
  intros env t log. unfold ApiCatalog.POST, CatalogService.bind, CatalogService.ret.
  pose proof (fetchCatalog_sends_one (CatalogService.constructor env) t log eq_refl) as Hlog.
  destruct (CatalogService.fetchCatalog _ t log) as [r log']. cbn [fst snd] in *.
  destruct (truthy_opt_string (CatalogService.error r)) eqn:He; cbn [fst snd].
  - split; [done|]. by right.
  - split; [done|]. by left.
Qed.

(** X15: a failure whose message is the empty string is not reported: when the
    request is rejected with an [Error] of empty message, the endpoint answers
    200 with an empty catalog. *)
Theorem endpoint_swallows_empty_error_message :
  forall (env : CatalogService.Env) (t : CatalogService.Transport)
         (log : list CatalogService.Request),
    t (CatalogService.request_of (CatalogService.constructor env))
    = inl (CatalogService.ErrorObject "") ->
    (ApiCatalog.POST env t log).1
    = {| ApiCatalog.api_status := 200;
         ApiCatalog.api_body := {| ApiCatalog.body_catalog := Some [];
                                   ApiCatalog.body_error := None |} |}.
Proof.
  intros env t log Ht.
  unfold ApiCatalog.POST, CatalogService.bind, CatalogService.ret.
  pose proof (fetchCatalog_response (CatalogService.constructor env) t log eq_refl) as Hr.
  rewrite Ht in Hr.
  destruct (CatalogService.fetchCatalog _ t log) as [r log']. cbn [fst] in Hr.
  by subst r.
Qed.

(** Witness for X15: a transport that rejects every request that way. *)
Lemma endpoint_swallows_empty_error_message_witness :
  (ApiCatalog.POST ∅ (fun _ => inl (CatalogService.ErrorObject "")) []).1
  = {| ApiCatalog.api_status := 200;
       ApiCatalog.api_body := {| ApiCatalog.body_catalog := Some [];
                                 ApiCatalog.body_error := None |} |}.
Proof. apply endpoint_swallows_empty_error_message. reflexivity. Defined.

(** ** The widget: selection, data sources, fallback fetch *)

Section WidgetFacts.
Import CatalogService Page PageData.

Lemma find_unique_id (catalog : list CatalogItem) (item : CatalogItem) :
  In item catalog ->
  NoDup (map id catalog) ->
  List.find (fun x => (id x =? id item)%Z) catalog = Some item.
Proof.
  induction catalog as [|x l IH]; intros Hin Hnd; [by destruct Hin|].
  cbn [map] in Hnd. apply NoDup_cons in Hnd as [Hx Hnd]. cbn [List.find].
  destruct Hin as [->|Hin].
  - by rewrite Z.eqb_refl.
  - destruct (Z.eqb_spec (id x) (id item)) as [Heq|_]; [|by apply IH].
    destruct Hx. rewrite Heq. apply list_elem_of_In, in_map, Hin.
Qed.

Lemma displayed_tool (toolOutput : option ToolOutput) (localCatalog : list CatalogItem) :
  catalogFromTool toolOutput <> [] ->
  displayed toolOutput localCatalog = catalogFromTool toolOutput.
Proof. unfold displayed. by destruct (catalogFromTool toolOutput). Qed.

Lemma displayed_local (toolOutput : option ToolOutput) (localCatalog : list CatalogItem) :
  catalogFromTool toolOutput = [] ->
  displayed toolOutput localCatalog = localCatalog.
Proof. unfold displayed. by intros ->. Qed.

(** The state after a fetch, by what the [try] block produced. *)
Lemma fetchCatalogData_state (outcome : Outcome) (st : LocalState) :
  fetchCatalogData outcome st
  = match try_block outcome with
    | inr items => {| localCatalog := items; loading := false; localError := None |}
    | inl e => {| localCatalog := localCatalog st; loading := false;
                  localError := Some (message_of e) |}
    end.
Proof. unfold fetchCatalogData, fetch_settled. by destruct (try_block outcome). Qed.

(** What the [try] block makes of a reply of the endpoint. *)
Lemma try_block_served (reply : ApiCatalog.ApiResponse) :
  try_block (served reply)
  = if (200 <=? ApiCatalog.api_status reply)%nat && (ApiCatalog.api_status reply <=? 299)%nat
    then inr (default [] (ApiCatalog.body_catalog (ApiCatalog.api_body reply)))
    else inl (ErrorObject
                (or_string (ApiCatalog.body_error (ApiCatalog.api_body reply))
                   ("Failed to fetch: " ++ number_to_string (ApiCatalog.api_status reply)))).
Proof. unfold try_block, served. cbn. by destruct (_ && _). Qed.

Lemma or_string_truthy (o : option string) (d : string) :
  truthy_opt_string o = true -> Some (or_string o d) = o.
Proof. by destruct o as [[|]|]. Qed.

End WidgetFacts.

(** X16: selecting is a round trip when identifiers are unique: after a click
    on a displayed item whose identifier is not 0 the selected item is that very
    item, and after closing the details nothing is selected. *)
Theorem select_then_resolve :
  forall (catalog : list CatalogService.CatalogItem) (item : CatalogService.CatalogItem)
         (widgetState : option Page.WidgetState),
    In item catalog ->
    CatalogService.id item <> 0%Z ->
    NoDup (map CatalogService.id catalog) ->
    Page.selectedCard (Page.handleCardClick item widgetState) catalog = Some item
    /\ Page.selectedCard
         (Page.handleCloseDetails (Page.handleCardClick item widgetState)) catalog = None.
Proof.
  intros catalog item ws Hin Hid Hnd. split; [|done].
  unfold Page.handleCardClick, Page.selectedCard. cbn [Page.selectedCardId].
  unfold truthy_number. rewrite (proj2 (Z.eqb_neq _ 0) Hid). cbn [negb].
  by apply find_unique_id.
Qed.

(** Witness for X16: [wyoming] (id 8) clicked in [delaware; wyoming]. *)
Lemma select_then_resolve_witness :
  Page.selectedCard (Page.handleCardClick Samples.wyoming None)
    [Samples.delaware; Samples.wyoming] = Some Samples.wyoming
  /\ Page.selectedCard
       (Page.handleCloseDetails (Page.handleCardClick Samples.wyoming None))
       [Samples.delaware; Samples.wyoming] = None.
Proof.
  apply select_then_resolve.
  - right. left. reflexivity.
  - discriminate.
  - cbn. apply NoDup_cons. split; [|apply NoDup_singleton].
    intros Hin. apply list_elem_of_singleton in Hin. discriminate.
Defined.

(** X17: data from the tool always wins: while the tool output holds items,
    they are what is shown, before and after any local fetch, and the fallback
    effect starts no fetch, in either mode. *)
Theorem tool_data_wins :
  forall (toolOutput : option Page.ToolOutput) (st : PageData.LocalState)
         (outcome : PageData.Outcome) (isChatGptApp : bool),
    Page.catalogFromTool toolOutput <> [] ->
    PageData.catalog toolOutput st = Page.catalogFromTool toolOutput
    /\ PageData.catalog toolOutput (PageData.fetchCatalogData outcome st)
       = Page.catalogFromTool toolOutput
    /\ PageData.fallback_effect isChatGptApp toolOutput st = PageData.NoFetch.
Proof.
  intros toolOutput st outcome isChatGptApp Hne. unfold PageData.catalog.
  rewrite !displayed_tool by done. split; [done|]. split; [done|].
  unfold PageData.fallback_effect, PageData.should_fetch.
  destruct (Page.catalogFromTool toolOutput); [done|]. by destruct isChatGptApp.
Qed.

(** Witness for X17: a tool output with [delaware] while a local fetch fails. *)
Lemma tool_data_wins_witness :
  PageData.catalog
    (Some {| Page.serviceName := None; Page.catalog := Some [Samples.delaware];
             Page.error := None; Page.count := Some 1; Page.message := None |})
    PageData.initial
  = [Samples.delaware]
  /\ PageData.catalog
       (Some {| Page.serviceName := None; Page.catalog := Some [Samples.delaware];
                Page.error := None; Page.count := Some 1; Page.message := None |})
       (PageData.fetchCatalogData (inl CatalogService.NotAnError) PageData.initial)
     = [Samples.delaware]
  /\ PageData.fallback_effect true
       (Some {| Page.serviceName := None; Page.catalog := Some [Samples.delaware];
                Page.error := None; Page.count := Some 1; Page.message := None |})
       PageData.initial
     = PageData.NoFetch.
Proof.
  apply (tool_data_wins
           (Some {| Page.serviceName := None; Page.catalog := Some [Samples.delaware];
                    Page.error := None; Page.count := Some 1; Page.message := None |})
           PageData.initial (inl CatalogService.NotAnError) true).
  discriminate.
Defined.

Section EndpointFetchFacts.
Import CatalogService.

Lemma via_endpoint_state (env : Env) (st : PageData.LocalState)
    (t : Transport) (log : list Request) :
  (PageData.fetchCatalogData_via_endpoint env st t log).1
  = if truthy_opt_string (error (fetchCatalog (constructor env) t log).1)
    then {| PageData.localCatalog := PageData.localCatalog st;
            PageData.loading := false;
            PageData.localError := error (fetchCatalog (constructor env) t log).1 |}
    else {| PageData.localCatalog := catalog (fetchCatalog (constructor env) t log).1;
            PageData.loading := false;
            PageData.localError := None |}.
Proof.
  unfold PageData.fetchCatalogData_via_endpoint, ApiCatalog.POST, bind, ret.
  destruct (fetchCatalog _ t log) as [r log']. cbn [fst].
  destruct (truthy_opt_string (error r)) eqn:He; cbn [fst];
    rewrite fetchCatalogData_state, try_block_served; cbn.
  - by rewrite (or_string_truthy _ _ He).
  - done.
Qed.

End EndpointFetchFacts.

(** X18: the page's fetch answered by the application's own endpoint: the
    state it ends in is determined by what [fetchCatalog] returned. A non-empty
    error arrives verbatim as the local error and the catalog shown before is
    kept; otherwise the fetched catalog replaces the local one and the local
    error is cleared. Loading is over in both cases. *)
Theorem endpoint_fetch_final_state :
  forall (env : CatalogService.Env) (st : PageData.LocalState)
         (t : CatalogService.Transport) (log : list CatalogService.Request),
    (PageData.fetchCatalogData_via_endpoint env st t log).1
    = if truthy_opt_string
           (CatalogService.error
              (CatalogService.fetchCatalog (CatalogService.constructor env) t log).1)
      then {| PageData.localCatalog := PageData.localCatalog st;
              PageData.loading := false;
              PageData.localError :=
                CatalogService.error
                  (CatalogService.fetchCatalog (CatalogService.constructor env) t log).1 |}
      else {| PageData.localCatalog :=
                CatalogService.catalog
                  (CatalogService.fetchCatalog (CatalogService.constructor env) t log).1;
              PageData.loading := false;
              PageData.localError := None |}.
Proof. intros env st t log. apply via_endpoint_state. Qed.

(** X19: after a local fetch the fallback is armed again exactly when the tool
    output holds no items and the fetch produced an empty list (or failed with
    an empty message while no local catalog was held). *)
Theorem fallback_rearmed_iff :
  forall (toolOutput : option Page.ToolOutput) (outcome : PageData.Outcome)
         (st : PageData.LocalState),
    PageData.should_fetch toolOutput (PageData.fetchCatalogData outcome st) = true
    <-> Page.catalogFromTool toolOutput = []
        /\ (PageData.try_block outcome = inr []
            \/ exists e, PageData.try_block outcome = inl e
                         /\ PageData.message_of e = ""
                         /\ PageData.localCatalog st = []).
Proof.
  intros toolOutput outcome st. rewrite fetchCatalogData_state.
  unfold PageData.should_fetch.
  destruct (Page.catalogFromTool toolOutput) as [|x l];
    [|split; [done|by intros [? _]]].
  destruct (PageData.try_block outcome) as [e|items]; cbn.
  - destruct (PageData.localCatalog st) as [|y ys]; cbn.
    + destruct (PageData.message_of e) as [|c m] eqn:Hm; cbn.
      * split; [|done]. intros _. split; [done|]. right. by exists e.
      * split; [done|]. intros [_ [?|(e' & ? & Hm' & _)]]; [done|].
        simplify_eq. congruence.
    + split; [done|]. intros [_ [?|(e' & ? & _ & ?)]]; done.
  - destruct items as [|y ys]; cbn.
    + split; [|done]. intros _. split; [done|]. by left.
    + split; [done|]. intros [_ [?|(e' & ? & _)]]; done.
Qed.

(** X20: with the application's own endpoint, an empty catalog from the source
    arms the fallback again: in standalone mode the effect fetches at once
    after every fetch that returned no items and no error, and only then. *)
Theorem empty_catalog_refetches_standalone :
  forall (env : CatalogService.Env) (st : PageData.LocalState)
         (t : CatalogService.Transport) (log : list CatalogService.Request)
         (toolOutput : option Page.ToolOutput),
    PageData.fallback_effect false toolOutput
      (PageData.fetchCatalogData_via_endpoint env st t log).1 = PageData.FetchNow
    <-> Page.catalogFromTool toolOutput = []
        /\ truthy_opt_string
             (CatalogService.error
                (CatalogService.fetchCatalog (CatalogService.constructor env) t log).1) = false
        /\ CatalogService.catalog
             (CatalogService.fetchCatalog (CatalogService.constructor env) t log).1 = [].
Proof.
  intros env st t log toolOutput. rewrite via_endpoint_state.
  unfold PageData.fallback_effect, PageData.should_fetch. cbn [negb].
  destruct (Page.catalogFromTool toolOutput) as [|x l]; cbn;
    [|split; [done|by intros [? _]]].
  destruct (truthy_opt_string (CatalogService.error _)) eqn:He; cbn.
  - rewrite He, andb_false_r. split; [done|]. by intros (_ & ? & _).
  - destruct (CatalogService.catalog _) as [|y ys]; cbn; [done|].
    split; [done|]. by intros (_ & _ & ?).
Qed.

(** X21: what the widget shows after an invocation. When the fetch failed
    with a non-empty error the widget shows its local catalog and the tool's
    error; when it succeeded with items the widget shows the tool's items, not
    the local catalog. *)
Theorem widget_after_invocation :
  forall (serviceName : option string) (r : CatalogService.CatalogResponse)
         (st : PageData.LocalState),
    (truthy_opt_string (CatalogService.error r) = true ->
     PageData.catalog (PageData.toolOutput_after serviceName r) st
     = PageData.localCatalog st
     /\ PageData.error (PageData.toolOutput_after serviceName r) st
        = CatalogService.error r
     /\ PageData.shows_error (PageData.toolOutput_after serviceName r) st = true)
    /\ (truthy_opt_string (CatalogService.error r) = false ->
        CatalogService.catalog r <> [] ->
        PageData.catalog (PageData.toolOutput_after serviceName r) st
        = McpRoute.catalog (McpRoute.structuredContent (McpRoute.respond serviceName r))
        /\ PageData.error (PageData.toolOutput_after serviceName r) st
           = PageData.localError st).
Proof.
  intros serviceName r st. split.
  - intros He.
    destruct (respond_cases serviceName r) as [[_ Hsc]|[(? & _)|(? & _)]];
      [|congruence..].
    unfold PageData.catalog, PageData.shows_error, PageData.error,
      PageData.toolOutput_after, PageData.toolOutput_of.
    rewrite Hsc. cbn. by rewrite He.
  - intros He Hne.
    destruct (respond_keeps_items serviceName r He Hne) as [Herr Hcat].
    unfold PageData.catalog, PageData.error, PageData.toolOutput_after,
      PageData.toolOutput_of. cbn. rewrite Herr. cbn. split; [|done].
    by apply displayed_tool.
Qed.

(** Witness for X21: the fetch failed with a 503. *)
Lemma widget_after_invocation_witness :
  PageData.catalog
    (PageData.toolOutput_after (Some "delaware")
       {| CatalogService.catalog := [];
          CatalogService.error := Some "Failed to fetch catalog: 503 Service Unavailable" |})
    PageData.initial
  = []
  /\ PageData.error
       (PageData.toolOutput_after (Some "delaware")
          {| CatalogService.catalog := [];
             CatalogService.error := Some "Failed to fetch catalog: 503 Service Unavailable" |})
       PageData.initial
     = Some "Failed to fetch catalog: 503 Service Unavailable"
  /\ PageData.shows_error
       (PageData.toolOutput_after (Some "delaware")
          {| CatalogService.catalog := [];
             CatalogService.error := Some "Failed to fetch catalog: 503 Service Unavailable" |})
       PageData.initial
     = true.
Proof.
  apply (proj1 (widget_after_invocation (Some "delaware")
                  {| CatalogService.catalog := [];
                     CatalogService.error :=
                       Some "Failed to fetch catalog: 503 Service Unavailable" |}
                  PageData.initial)).
  reflexivity.
Defined.

(** ** The base URL *)

Section BaseUrlFacts.
Import BaseUrl.

Lemma with_https_prefix (u : string) : String.prefix "https://" (with_https u) = true.
Proof.
  unfold with_https. destruct (String.prefix "https://" u) eqn:Hp; [done|].
  apply prefix_iff. by exists u.
Qed.

Lemma with_https_nonempty (u : string) : with_https u <> "".
Proof. intros H. pose proof (with_https_prefix u) as Hp. by rewrite H in Hp. Qed.

Lemma truthy_or_else (a b : option string) :
  truthy_opt_string (or_else a b) = truthy_opt_string a || truthy_opt_string b.
Proof. unfold or_else. by destruct (truthy_opt_string a) eqn:Ha; rewrite ?Ha. Qed.

Lemma or_else_first (a b : option string) :
  truthy_opt_string a = true -> or_else a b = a.
Proof. unfold or_else. by intros ->. Qed.

(** Removing the trailing slash changes the string by at most that slash. *)
Lemma strip_trailing_slash_cases (s : string) :
  strip_trailing_slash s = s \/ s = strip_trailing_slash s ++ "/".
Proof.
  induction s as [|c s IH]; [by left|].
  destruct s as [|d s'].
  - cbn [strip_trailing_slash]. destruct (Ascii.eqb_spec c "/") as [->|_]; [by right|by left].
  - change (strip_trailing_slash (String c (String d s')))
      with (String c (strip_trailing_slash (String d s'))).
    destruct IH as [->|IH]; [by left|].
    right. by rewrite append_cons, <- IH.
Qed.

Lemma prefix_app_r (h w x : string) :
  String.prefix h w = true -> String.prefix h (w ++ x) = true.
Proof.
  rewrite !prefix_iff. intros [post ->]. exists (post ++ x). by rewrite append_assoc.
Qed.

Lemma prefix_before_slash (h w : string) :
  String.prefix h (w ++ "/") = true -> String.prefix h w = true \/ w ++ "/" = h.
Proof.
  revert w. induction h as [|a h IH]; intros w Hp; [left; by destruct w|].
  destruct w as [|b w].
  - right. change ("" ++ "/") with "/" in *. cbn [String.prefix] in Hp.
    destruct (ascii_dec a "/") as [->|]; [|done]. by destruct h.
  - rewrite append_cons in *. cbn [String.prefix] in Hp |- *.
    destruct (ascii_dec a b) as [->|]; [|done].
    destruct (IH w Hp) as [? | ->]; [by left|by right].
Qed.

End BaseUrlFacts.

(** X22: both versions of [getBaseURL] return the empty string, the local
    development URL, or a string that begins with "https://"; nothing else. *)
Theorem base_url_shapes :
  forall (env : gmap string string),
    (BaseUrl.getBaseURL env = ""
     \/ BaseUrl.getBaseURL env = "http://localhost:3000"
     \/ String.prefix "https://" (BaseUrl.getBaseURL env) = true)
    /\ (BaseUrl.getBaseURL_unstripped env = ""
        \/ BaseUrl.getBaseURL_unstripped env = "http://localhost:3000"
        \/ String.prefix "https://" (BaseUrl.getBaseURL_unstripped env) = true).
Proof.
  intros env. unfold BaseUrl.getBaseURL, BaseUrl.getBaseURL_unstripped.
  destruct (BaseUrl.is_development env); [by split; right; left|].
  destruct (truthy_opt_string (BaseUrl.vercelUrl env)); [|by split; left].
  split; right; right; apply with_https_prefix.
Qed.

(** X23: the base URL is empty exactly when the process is not in development
    and each of the four Vercel variables is unset or empty. *)
Theorem base_url_empty_iff :
  forall (env : gmap string string),
    BaseUrl.getBaseURL env = ""
    <-> env !! "NODE_ENV" <> Some "development"
        /\ truthy_opt_string (env !! "VERCEL_PROJECT_PRODUCTION_URL") = false
        /\ truthy_opt_string (env !! "VERCEL_BRANCH_URL") = false
        /\ truthy_opt_string (env !! "VERCEL_URL") = false
        /\ truthy_opt_string (env !! "NEXT_PUBLIC_VERCEL_URL") = false.
Proof.
  intros env. unfold BaseUrl.getBaseURL, BaseUrl.is_development.
  case_bool_decide as Hdev.
  - split; [done|]. by intros [? _].
  - unfold BaseUrl.vercelUrl. rewrite !truthy_or_else.
    destruct (truthy_opt_string (env !! "VERCEL_PROJECT_PRODUCTION_URL"));
      cbn [orb]; [split; [by intros ?%with_https_nonempty|by intros (_ & ? & _)]|].
    destruct (truthy_opt_string (env !! "VERCEL_BRANCH_URL"));
      cbn [orb]; [split; [by intros ?%with_https_nonempty|by intros (_ & _ & ? & _)]|].
    destruct (truthy_opt_string (env !! "VERCEL_URL"));
      cbn [orb]; [split; [by intros ?%with_https_nonempty|by intros (_ & _ & _ & ? & _)]|].
    destruct (truthy_opt_string (env !! "NEXT_PUBLIC_VERCEL_URL"));
      [split; [by intros ?%with_https_nonempty|by intros (_ & _ & _ & _ & ?)]|done].
Qed.

(** X24: outside development a non-empty production URL decides the result:
    the base URL is that value without its trailing slash, prefixed with
    "https://" unless it already begins with it, and the three other Vercel
    variables have no influence. *)
Theorem base_url_production_first :
  forall (env : gmap string string) (u : string),
    env !! "NODE_ENV" <> Some "development" ->
    env !! "VERCEL_PROJECT_PRODUCTION_URL" = Some u ->
    u <> "" ->
    BaseUrl.getBaseURL env = BaseUrl.with_https (BaseUrl.strip_trailing_slash u)
    /\ forall (k v : string),
         k ∈ ["VERCEL_BRANCH_URL"; "VERCEL_URL"; "NEXT_PUBLIC_VERCEL_URL"] ->
         BaseUrl.getBaseURL (<[k := v]> env) = BaseUrl.getBaseURL env.
Proof.
  intros env u Hdev Hprod Hu.
  assert (Hgen : forall env' : gmap string string,
            env' !! "NODE_ENV" = env !! "NODE_ENV" ->
            env' !! "VERCEL_PROJECT_PRODUCTION_URL" = Some u ->
            BaseUrl.getBaseURL env'
            = BaseUrl.with_https (BaseUrl.strip_trailing_slash u)).
  { intros env' Hn Hp. unfold BaseUrl.getBaseURL, BaseUrl.is_development.
    rewrite Hn. case_bool_decide; [done|].
    unfold BaseUrl.vercelUrl. rewrite Hp.
    rewrite !(or_else_first (Some u)) by (by destruct u).
    cbn [truthy_opt_string default]. by destruct u. }
  split; [by apply Hgen|].
  intros k v Hk. rewrite (Hgen env eq_refl Hprod). apply Hgen.
  - rewrite lookup_insert_ne; [done|]. intros ->.
    repeat (apply elem_of_cons in Hk as [Hk|Hk]; [discriminate|]).
    by apply elem_of_nil in Hk.
  - rewrite lookup_insert_ne; [done|]. intros ->.
    repeat (apply elem_of_cons in Hk as [Hk|Hk]; [discriminate|]).
    by apply elem_of_nil in Hk.
Qed.

(** Witness for X24: a production URL given with a trailing slash. *)
Lemma base_url_production_first_witness :
  BaseUrl.getBaseURL
    (<["VERCEL_PROJECT_PRODUCTION_URL" := "shop.example.com/"]>
       (<["VERCEL_URL" := "shop-git-main.vercel.app"]> ∅))
  = BaseUrl.with_https (BaseUrl.strip_trailing_slash "shop.example.com/")
  /\ forall (k v : string),
       k ∈ ["VERCEL_BRANCH_URL"; "VERCEL_URL"; "NEXT_PUBLIC_VERCEL_URL"] ->
       BaseUrl.getBaseURL
         (<[k := v]> (<["VERCEL_PROJECT_PRODUCTION_URL" := "shop.example.com/"]>
                        (<["VERCEL_URL" := "shop-git-main.vercel.app"]> ∅)))
       = BaseUrl.getBaseURL
           (<["VERCEL_PROJECT_PRODUCTION_URL" := "shop.example.com/"]>
              (<["VERCEL_URL" := "shop-git-main.vercel.app"]> ∅)).
Proof.
  apply base_url_production_first.
  - vm_compute. discriminate.
  - reflexivity.
  - discriminate.
Defined.

(** X25: the two versions of [getBaseURL] differ by at most one trailing
    slash: unless the chosen Vercel value is exactly "https://", the version
    without the trailing-slash step returns the other version's result, or that
    result followed by "/". *)
Theorem base_url_versions_differ_by_slash :
  forall (env : gmap string string),
    default "" (BaseUrl.vercelUrl env) <> "https://" ->
    BaseUrl.getBaseURL_unstripped env = BaseUrl.getBaseURL env
    \/ BaseUrl.getBaseURL_unstripped env = BaseUrl.getBaseURL env ++ "/".
Proof.
  intros env Hodd. unfold BaseUrl.getBaseURL, BaseUrl.getBaseURL_unstripped.
  destruct (BaseUrl.is_development env); [by left|].
  destruct (truthy_opt_string (BaseUrl.vercelUrl env)); [|by left].
  revert Hodd. generalize (default "" (BaseUrl.vercelUrl env)). intros u Hodd.
  destruct (strip_trailing_slash_cases u) as [->|Hu]; [by left|].
  right. revert Hu Hodd. generalize (BaseUrl.strip_trailing_slash u). intros w -> Hodd.
  unfold BaseUrl.with_https.
  destruct (String.prefix "https://" w) eqn:Hw.
  - by rewrite (prefix_app_r _ _ "/" Hw).
  - destruct (String.prefix "https://" (w ++ "/")) eqn:Hws.
    + destruct (prefix_before_slash _ _ Hws) as [?|?]; congruence.
    + by rewrite append_assoc.
Qed.

(** Witness for X25: the deployment URL is given with a trailing slash. *)
Lemma base_url_versions_differ_by_slash_witness :
  BaseUrl.getBaseURL_unstripped (<["VERCEL_URL" := "my-app.vercel.app/"]> ∅)
  = BaseUrl.getBaseURL (<["VERCEL_URL" := "my-app.vercel.app/"]> ∅)
  \/ BaseUrl.getBaseURL_unstripped (<["VERCEL_URL" := "my-app.vercel.app/"]> ∅)
     = BaseUrl.getBaseURL (<["VERCEL_URL" := "my-app.vercel.app/"]> ∅) ++ "/".
Proof.
  apply base_url_versions_differ_by_slash. vm_compute. discriminate.
Defined.
